(** * OrigeneMCP, TCGA expression client: model and verification

    The development embeds [tools/tcga/tcga_api.py] (the paginated fetch of
    the Firebrowse mRNASeq table, the per-cohort statistics and the z-score
    classification) and the error wrapper of [tools/tcga/server.py].

    Conventions of the model.
    - A float64 is an extended real: a finite value carries an exact real
      number, next to the IEEE special values [+inf], [-inf] and [NaN].
      Rounding error, overflow, underflow and the sign of zero are not
      modelled; every special-value rule of IEEE arithmetic is.
    - A Python exception is a value of the type [exception]; a computation
      that may raise lives in the error monad [sum exception].
    - The HTTP session and the CSV parser are external collaborators and
      enter as parameters ([session_get], [read_csv]).
    - The [while True] loop takes a fuel argument; [None] means that the
      fuel ran out before the loop reached a [break]. *)

From Stdlib Require Import Reals Lra Lia List String Ascii Bool Arith ZArith.
From Stdlib Require Import Sorting.Sorted Sorting.Permutation.
From Stdlib Require Floats.
From ExtLib Require Import Structures.Monad Structures.MonadExc.
From ExtLib Require Import Data.Monads.EitherMonad.
Import ListNotations.
Import MonadNotation.

Local Open Scope monad_scope.
Local Open Scope string_scope.
Local Open Scope list_scope.

(* ===================================================================== *)
(** ** float64: extended reals with NaN *)
(* ===================================================================== *)

Module Float64.

Local Open Scope R_scope.

Inductive float64 : Type :=
| Fin (r : R)
| PInf
| NInf
| NaN.

Definition isnan (x : float64) : bool :=
  match x with NaN => true | _ => false end.

Definition notna (x : float64) : bool := negb (isnan x).

Definition fneg (x : float64) : float64 :=
  match x with
  | Fin a => Fin (- a)
  | PInf => NInf
  | NInf => PInf
  | NaN => NaN
  end.

Definition fadd (x y : float64) : float64 :=
  match x, y with
  | NaN, _ | _, NaN => NaN
  | Fin a, Fin b => Fin (a + b)
  | PInf, NInf | NInf, PInf => NaN
  | PInf, _ | _, PInf => PInf
  | NInf, _ | _, NInf => NInf
  end.

Definition fsub (x y : float64) : float64 := fadd x (fneg y).

(** An infinity times a finite value: the sign rule, and [inf * 0 = NaN]. *)
Definition scale_inf (positive : bool) (a : R) : float64 :=
  if Req_dec_T a 0 then NaN
  else if Rlt_dec 0 a then (if positive then PInf else NInf)
       else (if positive then NInf else PInf).

Definition fmul (x y : float64) : float64 :=
  match x, y with
  | NaN, _ | _, NaN => NaN
  | Fin a, Fin b => Fin (a * b)
  | Fin a, PInf | PInf, Fin a => scale_inf true a
  | Fin a, NInf | NInf, Fin a => scale_inf false a
  | PInf, PInf | NInf, NInf => PInf
  | PInf, NInf | NInf, PInf => NInf
  end.

(** IEEE division: [0/0] and [inf/inf] are NaN, a non-zero finite value over
    zero is an infinity, a finite value over an infinity is zero. *)
Definition fdiv (x y : float64) : float64 :=
  match x, y with
  | NaN, _ | _, NaN => NaN
  | Fin a, Fin b =>
      if Req_dec_T b 0 then
        (if Req_dec_T a 0 then NaN else if Rlt_dec 0 a then PInf else NInf)
      else Fin (a / b)
  | Fin _, PInf | Fin _, NInf => Fin 0
  | PInf, Fin b => if Rlt_dec b 0 then NInf else PInf
  | NInf, Fin b => if Rlt_dec b 0 then PInf else NInf
  | PInf, PInf | PInf, NInf | NInf, PInf | NInf, NInf => NaN
  end.

Definition fsqrt (x : float64) : float64 :=
  match x with
  | Fin a => if Rlt_dec a 0 then NaN else Fin (sqrt a)
  | PInf => PInf
  | NInf => NaN
  | NaN => NaN
  end.

(** [x < y]; every comparison with NaN is false. *)
Definition fltb (x y : float64) : bool :=
  match x, y with
  | NaN, _ | _, NaN => false
  | Fin a, Fin b => if Rlt_dec a b then true else false
  | NInf, Fin _ | NInf, PInf | Fin _, PInf => true
  | _, _ => false
  end.

Definition fgtb (x y : float64) : bool := fltb y x.

(** [x <= y]; every comparison with NaN is false. *)
Definition fleb (x y : float64) : bool :=
  match x, y with
  | NaN, _ | _, NaN => false
  | Fin a, Fin b => if Rle_dec a b then true else false
  | NInf, _ | _, PInf => true
  | _, _ => false
  end.

Definition of_nat (n : nat) : float64 := Fin (INR n).

Definition is_zero (x : float64) : bool :=
  match x with
  | Fin a => if Req_dec_T a 0 then true else false
  | _ => false
  end.

(** numpy.rint: the nearest integer, ties to the even one. *)
Definition rint (x : R) : Z :=
  let f := Int_part x in
  let d := x - IZR f in
  if Rlt_dec d (1 / 2) then f
  else if Rlt_dec (1 / 2) d then (f + 1)%Z
       else if Z.even f then f else (f + 1)%Z.

(** [round(x, ndigits)] on a numpy float64: scale, [rint], scale back. *)
Definition round (x : float64) (ndigits : nat) : float64 :=
  match x with
  | Fin a => Fin (IZR (rint (a * 10 ^ ndigits)) / 10 ^ ndigits)
  | _ => x
  end.

(** The order of the extended reals, as a proposition (NaN is unordered). *)
Definition f_le (x y : float64) : Prop := fleb x y = true.

End Float64.
Export Float64.

(* ===================================================================== *)
(** ** Python: strings and exceptions *)
(* ===================================================================== *)

Module Py.

(** The exceptions the modelled code can raise. [ParserError] and
    [RequestException] stand for whatever the two collaborators raise. *)
Inductive exception : Type :=
| UnboundLocalError (name : string)
| ValueError_LengthMismatch (expected new : nat)
| KeyError (key : string)
| TypeError (what : string)
| ParserError (what : string)
| RequestException (what : string).

(** The error monad of a Python computation. *)
Abbreviation Exc := (sum exception).

(** ASCII white space as [str.strip] sees it. *)
Definition isspace (c : ascii) : bool :=
  let n := nat_of_ascii c in
  ((9 <=? n)%nat && (n <=? 13)%nat) || ((28 <=? n)%nat && (n <=? 32)%nat).

Fixpoint lstrip (s : string) : string :=
  match s with
  | EmptyString => EmptyString
  | String c s' => if isspace c then lstrip s' else s
  end.

Fixpoint rstrip (s : string) : string :=
  match s with
  | EmptyString => EmptyString
  | String c s' =>
      match rstrip s' with
      | EmptyString => if isspace c then EmptyString else String c EmptyString
      | r => String c r
      end
  end.

Definition strip (s : string) : string := rstrip (lstrip s).

(** [s.startswith(p)] *)
Definition startswith (s p : string) : bool := String.prefix p s.

(** [not s] for a string. *)
Definition falsy (s : string) : bool := (s =? "")%string.

End Py.
Export Py.

(* ===================================================================== *)
(** ** pandas: the operations the client uses *)
(* ===================================================================== *)

Module pd.

(** A cell of a parsed table: text, or a float64 (a missing cell is [NaN]). *)
Inductive cell : Type :=
| CStr (s : string)
| CNum (x : float64).

Definition float64_eq_dec (x y : float64) : {x = y} + {x <> y}.
Proof. decide equality; apply Req_dec_T. Defined.

Definition cell_eq_dec (a b : cell) : {a = b} + {a <> b}.
Proof. decide equality; [apply string_dec | apply float64_eq_dec]. Defined.

Definition isna (c : cell) : bool :=
  match c with CNum NaN => true | _ => false end.

(** A DataFrame, row-wise: the column labels and the rows in index order. *)
Record DataFrame : Type := mkDataFrame {
  columns : list string;
  rows : list (list cell)
}.

(** [df.columns = new]: pandas refuses labels of another List.length. *)
Definition set_columns (df : DataFrame) (new : list string) : Exc DataFrame :=
  if (List.length new =? List.length (columns df))%nat
  then ret (mkDataFrame new (rows df))
  else raise (ValueError_LengthMismatch (List.length (columns df)) (List.length new)).

(** [pd.concat(dfs, ignore_index=True)] for frames that share their column
    labels (the fetch loop only ever passes such frames): the columns of the
    first frame over the rows of all frames, in order. *)
Definition concat (dfs : list DataFrame) : DataFrame :=
  mkDataFrame (match dfs with [] => [] | d :: _ => columns d end)
              (flat_map rows dfs).

(** Position of a column label. *)
Fixpoint get_loc (name : string) (cols : list string) : option nat :=
  match cols with
  | [] => None
  | c :: cols' =>
      if (c =? name)%string then Some O
      else option_map S (get_loc name cols')
  end.

Definition column_loc (df : DataFrame) (name : string) : Exc nat :=
  match get_loc name (columns df) with
  | Some i => ret i
  | None => raise (KeyError name)
  end.

Definition cell_at (i : nat) (row : list cell) : cell := nth i row (CNum NaN).

(** The numeric view of a value cell; text has no mean. Column dtypes are
    not modelled apart from the cells: a column is numeric when all its
    cells are. *)
Definition to_numeric (c : cell) : Exc float64 :=
  match c with
  | CNum x => ret x
  | CStr s => raise (TypeError s)
  end.

Fixpoint to_numeric_all (cs : list cell) : Exc (list float64) :=
  match cs with
  | [] => ret []
  | c :: cs' =>
      x <- to_numeric c ;;
      xs <- to_numeric_all cs' ;;
      ret (x :: xs)
  end.

(** *** Reductions of a float64 Series (all skip NaN) *)

Definition fsum (xs : list float64) : float64 := fold_right fadd (Fin 0) xs.

Definition dropna (xs : list float64) : list float64 := filter notna xs.

(** [Series.count()] *)
Definition Series_count (xs : list float64) : nat := List.length (dropna xs).

(** [Series.mean()] *)
Definition Series_mean (xs : list float64) : float64 :=
  let vs := dropna xs in
  if (List.length vs =? 0)%nat then NaN
  else fdiv (fsum vs) (of_nat (List.length vs)).

(** [Series.var()], [ddof = 1] *)
Definition Series_var (xs : list float64) : float64 :=
  let vs := dropna xs in
  let n := List.length vs in
  if (n <=? 1)%nat then NaN
  else
    let avg := fdiv (fsum vs) (of_nat n) in
    let sqr := map (fun x => let d := fsub avg x in fmul d d) vs in
    fdiv (fsum sqr) (of_nat (n - 1)).

(** [Series.std()], [ddof = 1] *)
Definition Series_std (xs : list float64) : float64 := fsqrt (Series_var xs).

(** *** Sorting *)

(** A stable insertion sort along a boolean "may stand before". *)
Fixpoint insert_by {A : Type} (le : A -> A -> bool) (x : A) (l : list A) : list A :=
  match l with
  | [] => [x]
  | y :: l' => if le x y then x :: y :: l' else y :: insert_by le x l'
  end.

Definition sort_by {A : Type} (le : A -> A -> bool) (l : list A) : list A :=
  fold_right (insert_by le) [] l.

(** The order of [sort_values]: NaN last in both directions. *)
Definition value_le (ascending : bool) (x y : float64) : bool :=
  isnan y || (notna x && (if ascending then fleb x y else fleb y x)).

(** [df.sort_values(by, ascending=...)]. Rows of equal value keep their
    order here; pandas' default sort leaves that order open. *)
Definition sort_values {A : Type} (by_ : A -> float64) (ascending : bool)
    (l : list A) : list A :=
  sort_by (fun a b => value_le ascending (by_ a) (by_ b)) l.

(** The order of group keys: numbers before text, each kind in its order. *)
Definition key_le (a b : cell) : bool :=
  match a, b with
  | CNum x, CNum y => fleb x y
  | CNum _, CStr _ => true
  | CStr _, CNum _ => false
  | CStr s, CStr t => String.leb s t
  end.

(** *** groupby(...)[...].agg(["mean", "std", "count"]) *)

Record StatRow : Type := mkStatRow {
  cohort : cell;          (* the index label of the row *)
  mean : float64;
  std : float64;
  count : nat
}.

(** The values of the rows whose key is [k], in row order. *)
Definition group_values (keyed : list (cell * float64)) (k : cell) : list float64 :=
  map snd (filter (fun kv => if cell_eq_dec (fst kv) k then true else false) keyed).

(** The group keys: the distinct non-missing keys, sorted. *)
Definition group_keys (keyed : list (cell * float64)) : list cell :=
  sort_by key_le (nodup cell_eq_dec (filter (fun k => negb (isna k)) (map fst keyed))).

Definition agg_mean_std_count (keyed : list (cell * float64)) : list StatRow :=
  map (fun k =>
         let vs := group_values keyed k in
         mkStatRow k (Series_mean vs) (Series_std vs) (Series_count vs))
      (group_keys keyed).

Definition groupby_agg (df : DataFrame) (by_ value : string) : Exc (list StatRow) :=
  ki <- column_loc df by_ ;;
  vi <- column_loc df value ;;
  vals <- to_numeric_all (map (cell_at vi) (rows df)) ;;
  ret (agg_mean_std_count (combine (map (cell_at ki) (rows df)) vals)).

End pd.
Export pd.

(* ===================================================================== *)
(** ** tools/tcga/tcga_api.py *)
(* ===================================================================== *)

Module TCGA_API.

(** The query string of one request. *)
Record Params : Type := mkParams {
  format : string;
  gene : string;
  sample_type : string;
  protocol : string;
  page_size : nat;
  page : nat;
  sort_by : string
}.

(** [params] as built in lines 13-21, at a given page. *)
Definition params_at (gene : string) (page : nat) : Params :=
  mkParams "tsv" gene "TM,TP,TR" "RSEM" 2000 page "cohort".

Record Response : Type := mkResponse {
  status_code : Z;
  text : string
}.

(** One element of the returned lists. *)
Record Entry : Type := mkEntry {
  cancer_type : cell;
  mean_expression : float64;
  sample_count : Z
}.

(** The returned dict. *)
Record Classification : Type := mkClassification {
  high_expression_cancers : list Entry;
  low_expression_cancers : list Entry
}.

(** A row of [df_grouped] once the [zscore] column is there. *)
Record ZRow : Type := mkZRow {
  stat : StatRow;
  zscore : float64
}.

Definition zmean (r : ZRow) : float64 := mean (stat r).

(** Line 52, for one row: [(mean - mean.mean()) / mean.std()], the two
    reductions running over the [mean] column of the whole frame. *)
Definition zscore_of (df_grouped : list StatRow) (r : StatRow) : float64 :=
  fdiv (fsub (mean r) (Series_mean (map mean df_grouped)))
       (Series_std (map mean df_grouped)).

(** Line 52: [df_grouped["zscore"] = ...]. *)
Definition with_zscore (df_grouped : list StatRow) : list ZRow :=
  map (fun r => mkZRow r (zscore_of df_grouped r)) df_grouped.

(** The divisions line 52 evaluates, as (numerator, denominator), one per
    row: the element-wise division of the centred means by the scalar
    standard deviation. *)
Definition zscore_divisions (df_grouped : list StatRow) : list (float64 * float64) :=
  let mu := Series_mean (map mean df_grouped) in
  let sd := Series_std (map mean df_grouped) in
  map (fun r => (fsub (mean r) mu, sd)) df_grouped.

(** Some division of line 52 has a zero denominator. *)
Definition divides_by_zero (df_grouped : list StatRow) : bool :=
  existsb (fun nd => is_zero (snd nd)) (zscore_divisions df_grouped).

(** Lines 60-64 and 68-72: the dict of one row. *)
Definition entry (r : ZRow) : Entry :=
  mkEntry (cohort (stat r))
          (round (mean (stat r)) 3)
          (Z.of_nat (count (stat r))).

(** Lines 55-56. *)
Definition high_expr (df_grouped : list StatRow) : list ZRow :=
  sort_values zmean false
    (filter (fun r => fgtb (zscore r) (Fin 1)) (with_zscore df_grouped)).

Definition low_expr (df_grouped : list StatRow) : list ZRow :=
  sort_values zmean true
    (filter (fun r => fltb (zscore r) (Fin (-1))) (with_zscore df_grouped)).

(** Lines 52-75: from the sorted statistics to the returned dict. *)
Definition classify (df_grouped : list StatRow) : Classification :=
  mkClassification (map entry (high_expr df_grouped))
                   (map entry (low_expr df_grouped)).

(** Line 51: group, aggregate, sort by mean descending. *)
Definition aggregate (final_df : DataFrame) : Exc (list StatRow) :=
  stats <- groupby_agg final_df "cohort" "expression_log2" ;;
  ret (sort_values mean false stats).

(** Lines 48-49: [final_df] is bound only when some page was kept. *)
Definition bind_final_df (all_data : list DataFrame) : option DataFrame :=
  match all_data with
  | [] => None
  | _ :: _ => Some (concat all_data)
  end.

(** Reading a local variable that may be unbound. *)
Definition read_local {A : Type} (name : string) (v : option A) : Exc A :=
  match v with
  | Some a => ret a
  | None => raise (UnboundLocalError name)
  end.

(** Lines 48-75, after the loop. *)
Definition analyse (all_data : list DataFrame) : Exc Classification :=
  final_df <- read_local "final_df" (bind_final_df all_data) ;;
  df_grouped <- aggregate final_df ;;
  ret (classify df_grouped).

Section Client.

(** [self.session.get(BASE_URL, params=params)] *)
Variable session_get : Params -> Exc Response.

(** [pd.read_csv(StringIO(content), sep="\t")], with [header=None] when the
    flag is false. *)
Variable read_csv : string -> bool -> Exc DataFrame.

(** What the loop leaves behind: the requests it issued (in order) and
    either the exception that escaped or [all_data]. *)
Definition Fetched : Type := (list Params * Exc (list DataFrame))%type.

(** The variables the loop updates: [params["page"]], the local [columns]
    (unbound before page 1 is parsed), [all_data], and the requests issued
    so far. *)
Record LoopState : Type := mkLoopState {
  params_page : nat;
  columns_var : option (list string);
  all_data : list DataFrame;
  requests : list Params
}.

(** Lines 26-45: one iteration. It either leaves the loop, by [break] or by
    an exception, or hands the updated variables to the next iteration. *)
Definition loop_body (gene : string) (s : LoopState) : LoopState + Fetched :=
  let params := params_at gene (params_page s) in
  let requests := requests s ++ [params] in
  match session_get params with
  | inl e => inr (requests, inl e)
  | inr resp =>
      if negb (status_code resp =? 200)%Z then inr (requests, inr (all_data s))
      else
        let content := strip (text resp) in
        if falsy content || startswith content "No records"
        then inr (requests, inr (all_data s))
        else if (params_page s =? 1)%nat then
          match read_csv content true with
          | inl e => inr (requests, inl e)
          | inr df =>
              inl (mkLoopState (params_page s + 1) (Some (columns df))
                               (all_data s ++ [df]) requests)
          end
        else
          match df <- read_csv content false ;;
                cols <- read_local "columns" (columns_var s) ;;
                set_columns df cols with
          | inl e => inr (requests, inl e)
          | inr df =>
              inl (mkLoopState (params_page s + 1) (columns_var s)
                               (all_data s ++ [df]) requests)
          end
  end.

(** Line 25: [while True]. *)
Fixpoint fetch_loop (fuel : nat) (gene : string) (s : LoopState) : option Fetched :=
  match fuel with
  | O => None
  | S fuel' =>
      match loop_body gene s with
      | inr done => Some done
      | inl s' => fetch_loop fuel' gene s'
      end
  end.

(** The variables at the top of the iteration that follows [n] iterations
    which all went on. *)
Fixpoint after (n : nat) (gene : string) (s : LoopState) : option LoopState :=
  match n with
  | O => Some s
  | S n' =>
      match loop_body gene s with
      | inl s' => after n' gene s'
      | inr _ => None
      end
  end.

(** Lines 13-23: the variables before the loop. *)
Definition initial : LoopState := mkLoopState 1 None [] [].

(** The frame [df] is what the loop keeps of page [i + 1]: the page answered
    200 with a body that is neither blank nor the sentinel, and the body
    parsed (with a header on page 1 only) to a frame of as many columns,
    whose rows are those of [df]. *)
Definition kept (gene : string) (i : nat) (df : DataFrame) : Prop :=
  exists resp raw,
    session_get (params_at gene (S i)) = inr resp /\
    status_code resp = 200%Z /\
    falsy (strip (text resp)) || startswith (strip (text resp)) "No records" = false /\
    read_csv (strip (text resp)) (i =? 0)%nat = inr raw /\
    rows df = rows raw /\
    List.length (columns df) = List.length (columns raw).

(** What holds of the variables at the top of every iteration. *)
Definition loop_invariant (gene : string) (s : LoopState) : Prop :=
  params_page s = S (List.length (all_data s)) /\
  requests s = map (params_at gene) (seq 1 (List.length (all_data s))) /\
  (forall i df, nth_error (all_data s) i = Some df -> kept gene i df) /\
  match all_data s with
  | [] => True
  | df1 :: _ =>
      columns_var s = Some (columns df1) /\
      Forall (fun df => columns df = columns df1) (all_data s)
  end.

(** Lines 13-45: the loop from its initial state. *)
Definition fetch (fuel : nat) (gene : string) : option Fetched :=
  fetch_loop fuel gene initial.

(** The method [get_gene_specific_expression_in_cancer_type]. *)
Definition get_gene_specific_expression_in_cancer_type (fuel : nat)
    (gene : string) : option (Exc Classification) :=
  match fetch fuel gene with
  | None => None
  | Some (_, inl e) => Some (inl e)
  | Some (_, inr all_data) => Some (analyse all_data)
  end.

End Client.

Section SharedSession.

(** The client object holds one [requests.Session] (line 9) for all the
    calls made on it; a request may change the session (cookies, pooled
    connections), and the next request, of this call or of a later one,
    starts from the changed session. *)
Variable Session : Type.

(** [self.session.get(BASE_URL, params=params)] on a session: the session
    it leaves behind, and the response or the exception. *)
Variable session_get : Session -> Params -> Session * Exc Response.

Variable read_csv : string -> bool -> Exc DataFrame.

(** Lines 26-45 on the shared session: the one request of the iteration is
    made on the session as it is, the rest of the iteration is
    [loop_body]. *)
Definition loop_body_on (gene : string) (session : Session) (s : LoopState)
    : Session * (LoopState + Fetched) :=
  let (session', answer) := session_get session (params_at gene (params_page s)) in
  (session', loop_body (fun _ => answer) read_csv gene s).

Fixpoint fetch_loop_on (fuel : nat) (gene : string) (session : Session)
    (s : LoopState) : option (Session * Fetched) :=
  match fuel with
  | O => None
  | S fuel' =>
      match loop_body_on gene session s with
      | (session', inr done) => Some (session', done)
      | (session', inl s') => fetch_loop_on fuel' gene session' s'
      end
  end.

(** One call of the method on the object: [params] and [all_data] are
    locals and start afresh (lines 13-23), the session does not. *)
Definition call (fuel : nat) (gene : string) (session : Session)
    : option (Session * Exc Classification) :=
  match fetch_loop_on fuel gene session initial with
  | None => None
  | Some (session', (_, inl e)) => Some (session', inl e)
  | Some (session', (_, inr all_data)) => Some (session', analyse all_data)
  end.

End SharedSession.

End TCGA_API.

(* ===================================================================== *)
(** ** tools/tcga/server.py *)
(* ===================================================================== *)

Module server.

Import TCGA_API.

(** The dict [{"error": message}]. *)
Record ErrorDict : Type := mkErrorDict {
  error : string
}.

(** What the tool hands to the hosting layer: the dict of the client, or a
    list of error dicts. *)
Inductive ToolResult : Type :=
| Result (r : Classification)
| ErrorList (errors : list ErrorDict).

Section Tool.

Variable session_get : Params -> Exc Response.
Variable read_csv : string -> bool -> Exc DataFrame.

(** [str(e)], the message the interpreter gives an exception. *)
Variable str : exception -> string.

(** The tool of lines 10-32: [try] the client, [except Exception]. *)
Definition get_gene_specific_expression_in_cancer_type (fuel : nat)
    (gene : string) : option ToolResult :=
  match TCGA_API.get_gene_specific_expression_in_cancer_type
          session_get read_csv fuel gene with
  | None => None
  | Some (inr result) => Some (Result result)
  | Some (inl e) =>
      Some (ErrorList
              [mkErrorDict
                 (String.append "An error occurred while search gene: " (str e))])
  end.

End Tool.

Section SharedClient.

(** Line 7: the module creates one client, [tcga_api = TCGA_API()], and
    every call of the tool goes through it. *)
Variable Session : Type.
Variable session_get : Session -> Params -> Session * Exc Response.
Variable read_csv : string -> bool -> Exc DataFrame.
Variable str : exception -> string.

(** What [except Exception] makes of the outcome of the method. *)
Definition wrap (outcome : Exc Classification) : ToolResult :=
  match outcome with
  | inr result => Result result
  | inl e =>
      ErrorList
        [mkErrorDict
           (String.append "An error occurred while search gene: " (str e))]
  end.

(** One call of the tool on the shared client. *)
Definition tool_call (fuel : nat) (gene : string) (session : Session)
    : option (Session * ToolResult) :=
  match TCGA_API.call Session session_get read_csv fuel gene session with
  | None => None
  | Some (session', outcome) => Some (session', wrap outcome)
  end.

(** Two calls of the tool for the same gene, one after the other. *)
Definition two_calls (fuel1 fuel2 : nat) (gene : string) (session : Session)
    : option (ToolResult * ToolResult) :=
  match tool_call fuel1 gene session with
  | None => None
  | Some (session1, r1) =>
      match tool_call fuel2 gene session1 with
      | None => None
      | Some (_, r2) => Some (r1, r2)
      end
  end.

End SharedClient.

End server.

(* ===================================================================== *)
(** ** tools/kegg/kegg_api.py *)
(* ===================================================================== *)

Module KeggAPI.

(** The values the methods are called with: [None], a str, or a list of
    str. *)
Inductive value : Type :=
| PNone
| PStr (s : string)
| PList (l : list string).

(** Truth value of an argument: [None], [""] and [[]] are false. *)
Definition truthy (v : value) : bool :=
  match v with
  | PNone => false
  | PStr s => negb (s =? "")%string
  | PList l => match l with [] => false | _ :: _ => true end
  end.

(** [v in choices], the choices being str literals. *)
Definition is_in (v : value) (choices : list string) : bool :=
  match v with
  | PStr s => existsb (String.eqb s) choices
  | _ => false
  end.

(** [isinstance(v, str)] *)
Definition isinstance_str (v : value) : bool :=
  match v with PStr _ => true | _ => false end.

(** [sep.join(l)] *)
Fixpoint join (sep : string) (l : list string) : string :=
  match l with
  | [] => EmptyString
  | [s] => s
  | s :: l' => String.append s (String.append sep (join sep l'))
  end.

(** What a call can raise: the ValueError of the argument checks, or
    whatever the session raises. *)
Inductive exception : Type :=
| ValueError (message : string)
| RequestException (what : string).

(** A call seen from outside: the URLs handed to [session.get], in order,
    and the returned text or the exception. *)
Definition Run : Type := (list string * (exception + string))%type.

Definition raise_ValueError (message : string) : Run :=
  ([], inl (ValueError message)).

Definition BASE_URL : string := "https://rest.kegg.jp".

Section Client.

(** [self.session.get(url).text], or the failure of the session. *)
Variable session_get : string -> string + string.

(** [str(l)] of a list, as an f-string formats it. *)
Variable repr : list string -> string.

(** An argument inside an f-string. *)
Definition format_value (v : value) : string :=
  match v with
  | PNone => "None"
  | PStr s => s
  | PList l => repr l
  end.

(** Lines 46-63: [query]. *)
Definition query (op : string) (arg1 arg2 arg3 : value) : Run :=
  let args :=
    if truthy arg2 && truthy arg3 then
      join "/" [op; format_value arg1; format_value arg2; format_value arg3]
    else if truthy arg2 then
      join "/" [op; format_value arg1; format_value arg2]
    else
      join "/" [op; format_value arg1] in
  let request_url := join "/" [BASE_URL; args] in
  ([request_url],
   match session_get request_url with
   | inl what => inl (RequestException what)
   | inr text => inr text
   end).

(** Lines 68-91: [kegg_info]. *)
Definition kegg_info (database : value) : Run :=
  query "info" database PNone PNone.

(** Lines 94-139: [kegg_list]. *)
Definition kegg_list (database org : value) : Run :=
  if is_in database ["pathway"; "module"] && truthy org then
    query "list" database org PNone
  else if isinstance_str database && truthy database && truthy org then
    raise_ValueError "Invalid database arg for kegg list request."
  else
    match database with
    | PList l =>
        if (100 <? List.length l)%nat then
          raise_ValueError "Maximum number of databases is 100 for kegg list query"
        else query "list" (PStr (join "+" l)) PNone PNone
    | _ => query "list" database PNone PNone
    end.

(** Lines 142-186: [kegg_find]. *)
Definition kegg_find (database query_ option : value) : Run :=
  if is_in database ["compound"; "drug"]
     && is_in option ["formula"; "exact_mass"; "mol_weight"] then
    query "find" database query_ option
  else if truthy option then
    raise_ValueError "Invalid option arg for kegg find request."
  else
    let query_ :=
      match query_ with
      | PList l => PStr (join "+" l)
      | _ => query_
      end in
    query "find" database query_ PNone.

(** Lines 189-222: [kegg_get]. *)
Definition kegg_get (dbentries option : value) : Run :=
  match
    match dbentries with
    | PList l =>
        if (List.length l <=? 10)%nat then inr (PStr (join "+" l))
        else inl "Maximum number of dbentries is 10 for kegg get query"
    | _ => inr dbentries
    end
  with
  | inl message => raise_ValueError message
  | inr dbentries =>
      if is_in option ["aaseq"; "ntseq"; "mol"; "kcf"; "image"; "kgml"; "json"] then
        query "get" dbentries option PNone
      else if truthy option then
        raise_ValueError "Invalid option arg for kegg get request."
      else query "get" dbentries PNone PNone
  end.

(** Lines 225-287: [kegg_conv]. *)
Definition kegg_conv (target_db source_db option : value) : Run :=
  if truthy option && negb (is_in option ["turtle"; "n-triple"]) then
    raise_ValueError "Invalid option arg for kegg conv request."
  else
    let source_db :=
      match source_db with
      | PList l => PStr (join "+" l)
      | _ => source_db
      end in
    if is_in target_db ["ncbi-gi"; "ncbi-geneid"; "uniprot"]
       || is_in source_db ["ncbi-gi"; "ncbi-geneid"; "uniprot"]
       || (is_in target_db ["drug"; "compound"; "glycan"]
           && is_in source_db ["pubchem"; "glycan"])
       || (is_in target_db ["pubchem"; "glycan"]
           && is_in source_db ["drug"; "compound"; "glycan"])
    then
      if truthy option then query "conv" target_db source_db option
      else query "conv" target_db source_db PNone
    else
      raise_ValueError "Bad argument target_db or source_db for kegg conv request.".

(** Lines 290-335: [kegg_link]. The message of the option check names conv in
    the source, too. *)
Definition kegg_link (target_db source_db option : value) : Run :=
  if truthy option && negb (is_in option ["turtle"; "n-triple"]) then
    raise_ValueError "Invalid option arg for kegg conv request."
  else
    let source_db :=
      match source_db with
      | PList l => PStr (join "+" l)
      | _ => source_db
      end in
    if truthy option then query "link" target_db source_db option
    else query "link" target_db source_db PNone.

End Client.

End KeggAPI.

(* ===================================================================== *)
(** ** The statistics in the words of the specification *)
(* ===================================================================== *)

Module Spec.

Local Open Scope R_scope.

Definition sum_R (xs : list R) : R := fold_right Rplus 0 xs.

(** Arithmetic mean. *)
Definition mean_R (xs : list R) : R := sum_R xs / INR (List.length xs).

(** Sample standard deviation: the squared deviations from the mean, summed,
    over [count - 1], under the square root. *)
Definition sample_std_R (xs : list R) : R :=
  sqrt (sum_R (map (fun x => (x - mean_R xs) * (x - mean_R xs)) xs)
        / INR (List.length xs - 1)).

(** The number of rows of a keyed dataset that carry the key [k]. *)
Definition row_count (keyed : list (cell * float64)) (k : cell) : nat :=
  List.length (filter (fun kv => if cell_eq_dec (fst kv) k then true else false) keyed).

End Spec.

(* ===================================================================== *)
(** ** Lines 52-75 in binary64 *)
(* ===================================================================== *)

(** numpy's float64 is the IEEE 754 binary64 format, which is the format of
    Rocq's primitive floats: the operations below round, overflow and
    underflow as those of the code do. *)
Module Binary64.

Import PrimFloat.
Local Open Scope float_scope.

(** An integer as a float64 (exact below 2^53). *)
Definition of_nat (n : nat) : float :=
  of_uint63 (Uint63Axioms.of_Z (Z.of_nat n)).

(** [numpy.rint]: the nearest integer, ties to the even one. Below 2^52 in
    magnitude it is what adding and subtracting 2^52 leaves, as in the C
    library; from 2^52 on every float64 is an integer. *)
Definition rint (x : float) : float :=
  if abs x <? 0x1p52 then
    if x <? 0 then - ((- x + 0x1p52) - 0x1p52)
    else if 0 <? x then (x + 0x1p52) - 0x1p52
    else x
  else x.

(** [round(x, ndigits)] on a numpy float64: scale, [rint], scale back. *)
Definition round (x : float) (ndigits : nat) : float :=
  rint (x * of_nat (10 ^ ndigits)) / of_nat (10 ^ ndigits).

(** A row of [df_grouped]. *)
Record StatRow : Type := mkStatRow {
  cohort : cell;          (* the index label of the row *)
  mean : float;
  std : float;
  count : nat
}.

(** One element of the returned lists. *)
Record Entry : Type := mkEntry {
  cancer_type : cell;
  mean_expression : float;
  sample_count : Z
}.

(** The returned dict. *)
Record Classification : Type := mkClassification {
  high_expression_cancers : list Entry;
  low_expression_cancers : list Entry
}.

(** A row of [df_grouped] once the [zscore] column is there. *)
Record ZRow : Type := mkZRow {
  stat : StatRow;
  zscore : float
}.

Definition zmean (r : ZRow) : float := mean (stat r).

(** The real number a finite float64 stands for (0 for the others). *)
Definition SF2R (x : SpecFloat.spec_float) : R :=
  match x with
  | SpecFloat.S754_finite s m e =>
      ((if s then - IZR (Zpos m) else IZR (Zpos m)) * powerRZ 2 e)%R
  | _ => 0%R
  end.

Definition to_R (x : float) : R := SF2R (FloatOps.Prim2SF x).

(** Neither an infinity nor NaN. *)
Definition finite (x : float) : bool :=
  match FloatOps.Prim2SF x with
  | SpecFloat.S754_finite _ _ _ | SpecFloat.S754_zero _ => true
  | _ => false
  end.

(** The float [r] is finite and within the relative error [eps] of the
    real number [v]. *)
Definition accurate (eps : R) (r : float) (v : R) : Prop :=
  finite r = true /\ (Rabs (to_R r - v) <= eps * Rabs v)%R.

Section Reductions.

(** [numpy.sum] over a float64 array. The order in which numpy adds the
    elements is its own (pairwise in blocks, from left to right within a
    block); nothing that is proved for every [np_sum] depends on it. *)
Variable np_sum : list float -> float.

(** pandas' reductions work on a copy in which 0 stands for each NaN. *)
Definition fillna0 (xs : list float) : list float :=
  map (fun x => if is_nan x then 0 else x) xs.

(** [Series.count()] *)
Definition Series_count (xs : list float) : nat :=
  List.length (filter (fun x => negb (is_nan x)) xs).

(** [Series.mean()] *)
Definition Series_mean (xs : list float) : float :=
  let count := Series_count xs in
  if (count =? 0)%nat then nan
  else np_sum (fillna0 xs) / of_nat count.

(** [Series.var()], [ddof = 1]: the sum of the squared deviations from the
    mean over [count - 1]. *)
Definition Series_var (xs : list float) : float :=
  let count := Series_count xs in
  if (count <=? 1)%nat then nan
  else
    let avg := np_sum (fillna0 xs) / of_nat count in
    let sqr := map (fun x => if is_nan x then 0 else (avg - x) * (avg - x)) xs in
    np_sum sqr / of_nat (count - 1).

(** [Series.std()], [ddof = 1] *)
Definition Series_std (xs : list float) : float := sqrt (Series_var xs).

(** The order of [sort_values]: NaN last in both directions. *)
Definition value_le (ascending : bool) (x y : float) : bool :=
  is_nan y || (negb (is_nan x) && (if ascending then x <=? y else y <=? x)).

(** [df.sort_values(by, ascending=...)]. Rows of equal value keep their
    order here; pandas' default sort leaves that order open. *)
Definition sort_values {A : Type} (by_ : A -> float) (ascending : bool)
    (l : list A) : list A :=
  pd.sort_by (fun a b => value_le ascending (by_ a) (by_ b)) l.

(** Line 52, for one row: [(mean - mean.mean()) / mean.std()], the two
    reductions running over the [mean] column of the whole frame. *)
Definition zscore_of (df_grouped : list StatRow) (r : StatRow) : float :=
  (mean r - Series_mean (map mean df_grouped)) / Series_std (map mean df_grouped).

(** Line 52: [df_grouped["zscore"] = ...]. *)
Definition with_zscore (df_grouped : list StatRow) : list ZRow :=
  map (fun r => mkZRow r (zscore_of df_grouped r)) df_grouped.

(** The divisions line 52 evaluates, as (numerator, denominator), one per
    row. *)
Definition zscore_divisions (df_grouped : list StatRow) : list (float * float) :=
  let mu := Series_mean (map mean df_grouped) in
  let sd := Series_std (map mean df_grouped) in
  map (fun r => (mean r - mu, sd)) df_grouped.

(** Some division of line 52 has a zero denominator. *)
Definition divides_by_zero (df_grouped : list StatRow) : bool :=
  existsb (fun nd => snd nd =? 0) (zscore_divisions df_grouped).

(** Lines 60-64 and 68-72: the dict of one row. *)
Definition entry (r : ZRow) : Entry :=
  mkEntry (cohort (stat r))
          (round (mean (stat r)) 3)
          (Z.of_nat (count (stat r))).

(** Lines 55-56. *)
Definition high_expr (df_grouped : list StatRow) : list ZRow :=
  sort_values zmean false
    (filter (fun r => 1 <? zscore r) (with_zscore df_grouped)).

Definition low_expr (df_grouped : list StatRow) : list ZRow :=
  sort_values zmean true
    (filter (fun r => zscore r <? -1) (with_zscore df_grouped)).

(** Lines 52-75: from the sorted statistics to the returned dict. *)
Definition classify (df_grouped : list StatRow) : Classification :=
  mkClassification (map entry (high_expr df_grouped))
                   (map entry (low_expr df_grouped)).

(** Line 52 on two cohort means [m1] and [m2], operation by operation, and
    what it means that none of them goes wrong: the operands are finite
    and distinct, the mean of the two lies within [eps] of half their
    distance from their midpoint, and every later operation returns a
    finite value within the relative error [eps] of the real result of
    the same operation on its operands. IEEE 754 keeps each operation
    within 2^-53 as long as its result neither overflows nor underflows. *)
Definition ordinary_pair (eps : R) (m1 m2 : float) : Prop :=
  let avg := np_sum [m1; m2] / of_nat 2 in
  let d1 := avg - m1 in
  let d2 := avg - m2 in
  let total := np_sum [d1 * d1; d2 * d2] in
  let var := total / of_nat 1 in
  let sd := sqrt var in
  finite m1 = true /\ finite m2 = true /\ to_R m1 <> to_R m2 /\
  finite avg = true /\
  (Rabs (to_R avg - (to_R m1 + to_R m2) / 2)
   <= eps * Rabs ((to_R m2 - to_R m1) / 2))%R /\
  accurate eps d1 (to_R avg - to_R m1) /\
  accurate eps d2 (to_R avg - to_R m2) /\
  accurate eps (d1 * d1) (to_R d1 * to_R d1) /\
  accurate eps (d2 * d2) (to_R d2 * to_R d2) /\
  accurate eps total (to_R (d1 * d1) + to_R (d2 * d2)) /\
  accurate eps var (to_R total / to_R (of_nat 1)) /\
  accurate eps sd (R_sqrt.sqrt (to_R var)) /\
  accurate eps (m1 - avg) (to_R m1 - to_R avg) /\
  accurate eps (m2 - avg) (to_R m2 - to_R avg) /\
  accurate eps ((m1 - avg) / sd) (to_R (m1 - avg) / to_R sd) /\
  accurate eps ((m2 - avg) / sd) (to_R (m2 - avg) / to_R sd).

End Reductions.

(** Up to 8 elements numpy adds from left to right. *)
Definition sum_in_order (xs : list float) : float := fold_left add xs 0.

End Binary64.

(* ===================================================================== *)
(** ** The z-score in the words of the specification, in binary64 *)
(* ===================================================================== *)

Module Spec64.

Import PrimFloat.
Local Open Scope float_scope.

Section Formulas.

(** The sum of a list of float64 values. *)
Variable total : list float -> float.

(** Mean of the cohort means. *)
Definition mean_of_means (means : list float) : float :=
  total means / Binary64.of_nat (List.length means).

(** Sample standard deviation of the cohort means: the squared deviations
    from their mean, summed, over [n - 1], under the square root. *)
Definition std_of_means (means : list float) : float :=
  sqrt (total (map (fun m => (mean_of_means means - m) * (mean_of_means means - m))
                   means)
        / Binary64.of_nat (List.length means - 1)).

(** Per-cohort z-score = (cohort.mean - mean_of_means) / std_of_means. *)
Definition zscore (means : list float) (m : float) : float :=
  (m - mean_of_means means) / std_of_means means.

End Formulas.

End Spec64.

(* ===================================================================== *)
(** ** Test doubles and the inputs of the worked scenarios *)
(* ===================================================================== *)

Module Scenario.

Import TCGA_API.

Definition tab : ascii := "009"%char.
Definition newline : ascii := "010"%char.

(** [s.split(sep)] for a one-character separator. *)
Fixpoint split (sep : ascii) (s : string) : list string :=
  match s with
  | EmptyString => [EmptyString]
  | String c s' =>
      if Ascii.eqb c sep then EmptyString :: split sep s'
      else match split sep s' with
           | [] => [String c EmptyString]
           | f :: fs => String c f :: fs
           end
  end.

(** [sep.join(l)] *)
Fixpoint join (sep : ascii) (l : list string) : string :=
  match l with
  | [] => EmptyString
  | [s] => s
  | s :: l' => String.append s (String sep (join sep l'))
  end.

(** A small tab-separated reader standing in for [pd.read_csv]: one row per
    line, one text cell per field; without a header the labels are blank. *)
Definition tsv_reader (content : string) (header : bool) : Exc DataFrame :=
  match split newline content with
  | [] => raise (ParserError "no lines")
  | first :: rest =>
      if header
      then ret (mkDataFrame (split tab first)
                            (map (fun l => map CStr (split tab l)) rest))
      else ret (mkDataFrame (map (fun _ => EmptyString) (split tab first))
                            (map (fun l => map CStr (split tab l)) (first :: rest)))
  end.

(** A remote that serves the given responses for pages 1, 2, ... and
    answers 404 afterwards. *)
Definition serve (pages : list Response) (q : Params) : Exc Response :=
  ret (nth (page q - 1) pages (mkResponse 404 EmptyString)).

Definition header5 : list string :=
  ["tcga_participant_barcode"; "cohort"; "expression_log2"; "gene"; "sample_type"].

Definition record5 : list string :=
  ["TCGA-A1-A0SB"; "BRCA"; "10.57"; "TP53"; "TP"].

Definition record4 : list string :=
  ["TCGA-A1-A0SB"; "BRCA"; "10.57"; "TP53"].

Definition body (lines : list (list string)) : string :=
  join newline (map (join tab) lines).

(** Page 1: a header of 5 columns over 2000 records; page 2: 2000 records
    without header; page 3: nothing. *)
Definition three_pages : list Response :=
  [ mkResponse 200 (body (header5 :: repeat record5 2000));
    mkResponse 200 (body (repeat record5 2000));
    mkResponse 200 EmptyString ].


(** A good first page, then a page of 4 columns. *)
Definition page_then_narrow : list Response :=
  [ mkResponse 200 (body [header5; record5]);
    mkResponse 200 (body [record4; record4]) ].

(** The interpreter's [str(e)], reduced to the exception's class name. *)
Definition class_name (e : exception) : string :=
  match e with
  | UnboundLocalError _ => "UnboundLocalError"
  | ValueError_LengthMismatch _ _ => "ValueError"
  | KeyError _ => "KeyError"
  | TypeError _ => "TypeError"
  | ParserError _ => "ParserError"
  | RequestException _ => "RequestException"
  end.

Definition stat_of (name : string) (m : R) (n : nat) : StatRow :=
  mkStatRow (CStr name) (Fin m) NaN n.


(** D(20) above A(5), B(5), C(5), in the order line 51 leaves them. *)
Definition outlier_cohorts : list StatRow :=
  [stat_of "D" 20 1; stat_of "A" 5 1; stat_of "B" 5 1; stat_of "C" 5 1].

(** A dataset with these statistics: one sample per cohort. *)
Definition outlier_df : DataFrame :=
  mkDataFrame ["tcga_participant_barcode"; "cohort"; "expression_log2"]
              [ [CStr "TCGA-01"; CStr "A"; CNum (Fin 5)];
                [CStr "TCGA-02"; CStr "D"; CNum (Fin 20)];
                [CStr "TCGA-03"; CStr "B"; CNum (Fin 5)];
                [CStr "TCGA-04"; CStr "C"; CNum (Fin 5)] ].

(** A reader that knows one body, and the frame it parses to. *)
Definition canned_reader (known : string) (df : DataFrame)
    (content : string) (header : bool) : Exc DataFrame :=
  if (content =? known)%string then ret df else raise (ParserError content).


(** Two rows of cohort A, the second without an expression value. *)
Definition missing_value_df : DataFrame :=
  mkDataFrame ["cohort"; "expression_log2"]
              [ [CStr "A"; CNum (Fin 1)]; [CStr "A"; CNum NaN] ].

End Scenario.

(* ===================================================================== *)
(** ** More remotes for worked runs *)
(* ===================================================================== *)

Module Remotes.

Import TCGA_API Scenario.

(** A remote that serves the same page for ever. *)
Definition endless (q : Params) : Exc Response :=
  ret (mkResponse 200 "one page").

(** A remote whose session fails from the second request on. *)
Definition drops_connection (q : Params) : Exc Response :=
  if (page q =? 1)%nat then ret (mkResponse 200 (body [header5; record5]))
  else raise (RequestException "connection reset").

(** A first page without a cohort column, then nothing. *)
Definition no_cohort_page : list Response :=
  [ mkResponse 200 (body [["gene"; "expression_log2"]; ["TP53"; "10.57"]]) ].

(** A good first page, then a partial-content answer. *)
Definition page_then_206 : list Response :=
  [ mkResponse 200 (body [header5; record5]);
    mkResponse 206 (body [record5]) ].

(** The text consists of white space only. *)
Fixpoint blank (s : string) : bool :=
  match s with
  | EmptyString => true
  | String c s' => isspace c && blank s'
  end.

(** A good first page, then the sentinel between blank lines. *)
Definition page_then_padded_sentinel : list Response :=
  [ mkResponse 200 (body [header5; record5]);
    mkResponse 200 (String newline (String.append "No records found"
                                      (String newline EmptyString))) ].

(** A first page that consists of the header line, then nothing. *)
Definition header_only : list Response :=
  [ mkResponse 200 (body [header5]);
    mkResponse 200 EmptyString ].

(** A server error on the very first page. *)
Definition fails_at_once : list Response :=
  [ mkResponse 500 "Internal Server Error" ].

(** A session that counts its requests (as a cookie would) in front of a
    remote that serves the given pages whatever the count. *)
Definition counting (pages : list Response) (session : nat) (q : Params)
    : nat * Exc Response :=
  (S session, serve pages q).

(** A KEGG session that answers every URL with the URL. *)
Definition echo (url : string) : string + string := inr url.

(** A stand-in for [str] of a list: the elements between brackets. *)
Definition bracketed (l : list string) : string :=
  String.append "[" (String.append (KeggAPI.join ", " l) "]").

End Remotes.

(* ===================================================================== *)
(** ** Statistics in binary64 for the worked runs *)
(* ===================================================================== *)

Module Cohorts.

Import PrimFloat Binary64.
Local Open Scope float_scope.

Definition stat_of (name : string) (m : float) (n : nat) : StatRow :=
  mkStatRow (CStr name) m nan n.

(** C(0.3), B(0.2), A(0.1), as the nearest float64 values and in the order
    line 51 leaves them. *)
Definition tenths : list StatRow :=
  [ stat_of "C" 0x1.3333333333333p-2 4;
    stat_of "B" 0x1.999999999999ap-3 4;
    stat_of "A" 0x1.999999999999ap-4 4 ].

(** D with a mean of 1e-170 (the nearest float64) over A, B, C with a mean
    of 0. *)
Definition tiny_outlier : list StatRow :=
  [ stat_of "D" 0x1.3529ba7d19eafp-565 4;
    stat_of "A" 0 4; stat_of "B" 0 4; stat_of "C" 0 4 ].

(** B with a mean of 1e-170 and A with a mean of 0. *)
Definition tiny_pair : list StatRow :=
  [ stat_of "B" 0x1.3529ba7d19eafp-565 4; stat_of "A" 0 4 ].

(** A(7), B(2). *)
Definition seven_and_two : list StatRow :=
  [ stat_of "A" 7 3; stat_of "B" 2 4 ].

(** A(10), B(10), C(10): no spread among the cohort means. *)
Definition flat : list StatRow :=
  [ stat_of "A" 10 5; stat_of "B" 10 5; stat_of "C" 10 5 ].

End Cohorts.

(* ===================================================================== *)
(** ** A change of units *)
(* ===================================================================== *)

Module Units.

Local Open Scope R_scope.




End Units.

(* ===================================================================== *)
(** * Verification *)
(* ===================================================================== *)

(** ** Facts about float64 *)

Section FloatFacts.

Local Open Scope R_scope.


Lemma fsub_nan_r (x : float64) : fsub x NaN = NaN.
Proof. destruct x; reflexivity. Qed.

End FloatFacts.

(** Case analysis on every decision of a real comparison in sight. *)
Ltac rdec :=
  repeat match goal with
  | |- context [Req_dec_T ?a ?b] => destruct (Req_dec_T a b)
  | |- context [Rlt_dec ?a ?b] => destruct (Rlt_dec a b)
  | |- context [Rle_dec ?a ?b] => destruct (Rle_dec a b)
  | H : context [Req_dec_T ?a ?b] |- _ => destruct (Req_dec_T a b)
  | H : context [Rlt_dec ?a ?b] |- _ => destruct (Rlt_dec a b)
  | H : context [Rle_dec ?a ?b] |- _ => destruct (Rle_dec a b)
  end.

Section SortFacts.

Context {A : Type} (le : A -> A -> bool).

Lemma insert_by_perm (x : A) (l : list A) :
  Permutation (insert_by le x l) (x :: l).
Proof.
  induction l as [|y l IH]; simpl.
  - apply Permutation_refl.
  - destruct (le x y).
    + apply Permutation_refl.
    + eapply perm_trans; [apply perm_skip, IH | apply perm_swap].
Qed.

Lemma sort_by_perm (l : list A) : Permutation (sort_by le l) l.
Proof.
  induction l as [|x l IH]; simpl.
  - constructor.
  - eapply perm_trans; [apply insert_by_perm | apply perm_skip, IH].
Qed.

Hypothesis le_total : forall a b, le a b = true \/ le b a = true.
Hypothesis le_trans : forall a b c, le a b = true -> le b c = true -> le a c = true.

Lemma insert_by_sorted (x : A) (l : list A) :
  StronglySorted (fun a b => le a b = true) l ->
  StronglySorted (fun a b => le a b = true) (insert_by le x l).
Proof.
  induction 1 as [|y l Hl IH Hy]; simpl.
  - repeat constructor.
  - destruct (le x y) eqn:E.
    + constructor; [constructor; assumption|].
      constructor; [assumption|].
      rewrite Forall_forall in *. intros z Hz. eauto.
    + constructor; [assumption|].
      assert (Hyx : le y x = true) by (destruct (le_total x y); congruence).
      rewrite Forall_forall in *. intros z Hz.
      apply (Permutation_in _ (insert_by_perm x l)) in Hz.
      destruct Hz as [<-|Hz]; auto.
Qed.

Lemma sort_by_sorted (l : list A) :
  StronglySorted (fun a b => le a b = true) (sort_by le l).
Proof.
  induction l as [|x l IH]; simpl.
  - constructor.
  - apply insert_by_sorted, IH.
Qed.

End SortFacts.

Lemma StronglySorted_weaken {A : Type} (R1 R2 : A -> A -> Prop) (l : list A) :
  (forall a b, In a l -> In b l -> R1 a b -> R2 a b) ->
  StronglySorted R1 l -> StronglySorted R2 l.
Proof.
  intros H S. induction S as [|x l Sl IH Hx].
  - constructor.
  - constructor.
    + apply IH. intros a b Ha Hb. apply H; now right.
    + rewrite Forall_forall in *. intros y Hy.
      apply H; [now left | now right | auto].
Qed.

Lemma value_le_total (asc : bool) (x y : float64) :
  value_le asc x y = true \/ value_le asc y x = true.
Proof.
  unfold value_le.
  destruct asc, x, y; simpl; rdec; auto; lra.
Qed.

Lemma value_le_trans (asc : bool) (x y z : float64) :
  value_le asc x y = true -> value_le asc y z = true -> value_le asc x z = true.
Proof.
  unfold value_le.
  destruct asc, x, y, z; simpl; rdec; auto; try discriminate; lra.
Qed.

Lemma sort_values_perm {A : Type} (by_ : A -> float64) (asc : bool) (l : list A) :
  Permutation (sort_values by_ asc l) l.
Proof. apply sort_by_perm. Qed.

Lemma sort_values_sorted {A : Type} (by_ : A -> float64) (asc : bool) (l : list A) :
  StronglySorted (fun a b => value_le asc (by_ a) (by_ b) = true)
                 (sort_values by_ asc l).
Proof.
  unfold sort_values. apply sort_by_sorted.
  - intros a b. apply value_le_total.
  - intros a b c. apply value_le_trans.
Qed.

(** ** Facts about the reductions *)

Section SeriesFacts.

Import Spec.
Local Open Scope R_scope.




Lemma fsum_fin (xs : list R) : fsum (map Fin xs) = Fin (sum_R xs).
Proof.
  unfold fsum. induction xs as [|x xs IH]; simpl; [reflexivity|].
  rewrite IH. reflexivity.
Qed.

Lemma dropna_fin (xs : list R) : dropna (map Fin xs) = map Fin xs.
Proof.
  unfold dropna. induction xs as [|x xs IH]; simpl; [reflexivity|].
  rewrite IH. reflexivity.
Qed.

Lemma INR_pos_neq (n : nat) : (0 < n)%nat -> INR n <> 0.
Proof. intros H. apply not_0_INR. lia. Qed.

Lemma fdiv_fin_nat (a : R) (n : nat) :
  (0 < n)%nat -> fdiv (Fin a) (of_nat n) = Fin (a / INR n).
Proof.
  intros H. unfold of_nat. simpl.
  destruct (Req_dec_T (INR n) 0) as [E|_]; [|reflexivity].
  now apply INR_pos_neq in H.
Qed.

Lemma Series_mean_fin (xs : list R) :
  xs <> [] -> Series_mean (map Fin xs) = Fin (mean_R xs).
Proof.
  intros H. unfold Series_mean, mean_R.
  rewrite dropna_fin, length_map, fsum_fin.
  destruct xs as [|x xs]; [congruence|].
  cbn [List.length Nat.eqb].
  apply fdiv_fin_nat. simpl. lia.
Qed.

Lemma sum_R_sq_nonneg (m : R) (xs : list R) :
  0 <= sum_R (map (fun x => (x - m) * (x - m)) xs).
Proof.
  unfold sum_R. induction xs as [|x xs IH]; simpl; [lra|].
  pose proof (Rle_0_sqr (x - m)) as Hx. unfold Rsqr in Hx. lra.
Qed.

Lemma sq_dev_fin (m : R) (xs : list R) :
  map (fun x => let d := fsub (Fin m) x in fmul d d) (map Fin xs)
  = map Fin (map (fun x => (x - m) * (x - m)) xs).
Proof.
  rewrite !map_map. apply map_ext. intros x. simpl. f_equal. ring.
Qed.

Lemma Series_std_fin (xs : list R) :
  (2 <= List.length xs)%nat ->
  Series_std (map Fin xs) = Fin (sample_std_R xs).
Proof.
  intros H. unfold Series_std, Series_var, sample_std_R.
  rewrite dropna_fin, length_map, fsum_fin.
  destruct (Nat.leb_spec (List.length xs) 1) as [Hle|_]; [lia|].
  rewrite fdiv_fin_nat by lia.
  fold (mean_R xs).
  rewrite sq_dev_fin, fsum_fin, fdiv_fin_nat by lia.
  simpl.
  destruct (Rlt_dec _ 0) as [Hneg|_]; [|reflexivity].
  exfalso.
  pose proof (sum_R_sq_nonneg (mean_R xs) xs) as Hs.
  assert (Hn : 0 < INR (List.length xs - 1)) by (apply lt_0_INR; lia).
  apply (Rlt_not_le _ _ Hneg).
  apply Rmult_le_pos; [assumption|].
  left. now apply Rinv_0_lt_compat.
Qed.

(** A list of fewer than two usable values has no standard deviation. *)
Lemma Series_std_short (xs : list float64) :
  (Series_count xs <= 1)%nat -> Series_std xs = NaN.
Proof.
  unfold Series_count, Series_std, Series_var. intros H.
  destruct (Nat.leb_spec (List.length (dropna xs)) 1); [reflexivity | lia].
Qed.

Lemma Series_count_le (xs : list float64) :
  (Series_count xs <= List.length xs)%nat.
Proof. apply filter_length_le. Qed.



End SeriesFacts.

(** ** Facts about the classification *)

Section ClassifyFacts.

Import TCGA_API Spec.
Local Open Scope R_scope.


Lemma filter_with_zscore (p : float64 -> bool) (g : list StatRow) :
  map stat (filter (fun z => p (zscore z)) (with_zscore g))
  = filter (fun r => p (zscore_of g r)) g.
Proof.
  unfold with_zscore. generalize (zscore_of g) as f. intros f.
  induction g as [|r g IH]; simpl; [reflexivity|].
  destruct (p (f r)); simpl; now rewrite IH.
Qed.

(** The z-scores are the quotients of the divisions of line 52. *)
Lemma zscore_divisions_quotients (g : list StatRow) :
  map zscore (with_zscore g)
  = map (fun nd => fdiv (fst nd) (snd nd)) (zscore_divisions g).
Proof.
  unfold with_zscore, zscore_divisions. rewrite !map_map. reflexivity.
Qed.

Lemma in_with_zscore (g : list StatRow) (z : ZRow) :
  In z (with_zscore g) <-> In (stat z) g /\ zscore z = zscore_of g (stat z).
Proof.
  unfold with_zscore. rewrite in_map_iff. split.
  - intros (r & <- & Hr). simpl. auto.
  - intros [Hin Hz]. exists (stat z). split; [|assumption].
    destruct z as [s v]; simpl in *. now subst v.
Qed.

Lemma in_high_expr (g : list StatRow) (z : ZRow) :
  In z (high_expr g) <->
  In (stat z) g /\ zscore z = zscore_of g (stat z) /\ fgtb (zscore z) (Fin 1) = true.
Proof.
  unfold high_expr. split.
  - intros H. apply (Permutation_in _ (sort_values_perm _ _ _)) in H.
    apply filter_In in H as [H1 H2]. apply in_with_zscore in H1. tauto.
  - intros (H1 & H2 & H3).
    apply (Permutation_in _ (Permutation_sym (sort_values_perm _ _ _))).
    apply filter_In. split; [apply in_with_zscore; tauto | assumption].
Qed.

Lemma in_low_expr (g : list StatRow) (z : ZRow) :
  In z (low_expr g) <->
  In (stat z) g /\ zscore z = zscore_of g (stat z) /\ fltb (zscore z) (Fin (-1)) = true.
Proof.
  unfold low_expr. split.
  - intros H. apply (Permutation_in _ (sort_values_perm _ _ _)) in H.
    apply filter_In in H as [H1 H2]. apply in_with_zscore in H1. tauto.
  - intros (H1 & H2 & H3).
    apply (Permutation_in _ (Permutation_sym (sort_values_perm _ _ _))).
    apply filter_In. split; [apply in_with_zscore; tauto | assumption].
Qed.

Lemma high_expr_perm (g : list StatRow) :
  Permutation (map stat (high_expr g))
              (filter (fun r => fgtb (zscore_of g r) (Fin 1)) g).
Proof.
  rewrite <- (filter_with_zscore (fun v => fgtb v (Fin 1))).
  apply Permutation_map, sort_values_perm.
Qed.

Lemma low_expr_perm (g : list StatRow) :
  Permutation (map stat (low_expr g))
              (filter (fun r => fltb (zscore_of g r) (Fin (-1))) g).
Proof.
  rewrite <- (filter_with_zscore (fun v => fltb v (Fin (-1)))).
  apply Permutation_map, sort_values_perm.
Qed.

(** An infinite value among the usable ones drags the sum along. *)
Lemma fsum_with_inf (inf : float64) (vs : list float64) :
  inf = PInf \/ inf = NInf -> In inf vs -> fsum vs = inf \/ fsum vs = NaN.
Proof.
  intros Hinf. unfold fsum.
  induction vs as [|v vs IH]; simpl; [tauto|].
  intros [->|Hin].
  - destruct Hinf as [-> | ->];
      destruct (fold_right fadd (Fin 0) vs); simpl; auto.
  - destruct (IH Hin) as [-> | ->];
      destruct Hinf as [-> | ->]; destruct v; simpl; auto.
Qed.

Lemma Series_mean_with_inf (inf : float64) (xs : list float64) :
  inf = PInf \/ inf = NInf -> In inf xs ->
  Series_mean xs = inf \/ Series_mean xs = NaN.
Proof.
  intros Hinf Hin. unfold Series_mean.
  assert (Hd : In inf (dropna xs)).
  { apply filter_In. split; [assumption|]. destruct Hinf as [-> | ->]; reflexivity. }
  destruct (Nat.eqb_spec (List.length (dropna xs)) 0) as [|Hn]; [now right|].
  destruct (fsum_with_inf inf _ Hinf Hd) as [-> | ->]; [|now right].
  left. unfold of_nat.
  pose proof (pos_INR (List.length (dropna xs))) as Hpos.
  destruct Hinf as [-> | ->]; simpl;
    destruct (Rlt_dec _ 0); try reflexivity; lra.
Qed.

(** A z-score that is a number belongs to a finite mean. *)
Lemma zscore_defined_fin (g : list StatRow) (r : StatRow) :
  In r g -> zscore_of g r <> NaN -> exists m, mean r = Fin m.
Proof.
  intros Hin Hz. unfold zscore_of in Hz.
  assert (Hm : In (mean r) (map mean g)) by now apply in_map.
  destruct (mean r) as [m| | |] eqn:Em; [eauto | | | ]; exfalso; apply Hz.
  - destruct (Series_mean_with_inf PInf _ (or_introl eq_refl) Hm) as [-> | ->];
      reflexivity.
  - destruct (Series_mean_with_inf NInf _ (or_intror eq_refl) Hm) as [-> | ->];
      reflexivity.
  - reflexivity.
Qed.

Lemma fgtb_nan (y : float64) : fgtb NaN y = false.
Proof. destruct y; reflexivity. Qed.

Lemma fltb_nan (y : float64) : fltb NaN y = false.
Proof. reflexivity. Qed.




End ClassifyFacts.

Section RoundFacts.

Local Open Scope R_scope.



End RoundFacts.

(** ** The classification claims *)

Section ClassificationClaims.

Import TCGA_API Spec Scenario.
Local Open Scope R_scope.

Lemma value_le_desc_fleb (x y : float64) :
  x <> NaN -> y <> NaN -> value_le false x y = true -> f_le y x.
Proof.
  unfold value_le, f_le. destruct x, y; simpl; congruence.
Qed.

Lemma value_le_asc_fleb (x y : float64) :
  x <> NaN -> y <> NaN -> value_le true x y = true -> f_le x y.
Proof.
  unfold value_le, f_le. destruct x, y; simpl; congruence.
Qed.

Lemma high_row_fin (g : list StatRow) (z : ZRow) :
  In z (high_expr g) -> exists m, zmean z = Fin m.
Proof.
  intros H. apply in_high_expr in H as (Hin & Hz & Hgt).
  apply (zscore_defined_fin g); [assumption|].
  rewrite <- Hz. intros E. rewrite E, fgtb_nan in Hgt. discriminate.
Qed.

Lemma low_row_fin (g : list StatRow) (z : ZRow) :
  In z (low_expr g) -> exists m, zmean z = Fin m.
Proof.
  intros H. apply in_low_expr in H as (Hin & Hz & Hlt).
  apply (zscore_defined_fin g); [assumption|].
  rewrite <- Hz. intros E. rewrite E in Hlt. discriminate.
Qed.

Lemma high_expr_sorted (g : list StatRow) :
  StronglySorted (fun a b => f_le (zmean b) (zmean a)) (high_expr g).
Proof.
  eapply StronglySorted_weaken; [|apply sort_values_sorted].
  intros a b Ha Hb. fold (high_expr g) in Ha, Hb.
  apply high_row_fin in Ha as [ma Ea], Hb as [mb Eb].
  apply value_le_desc_fleb; congruence.
Qed.

Lemma low_expr_sorted (g : list StatRow) :
  StronglySorted (fun a b => f_le (zmean a) (zmean b)) (low_expr g).
Proof.
  eapply StronglySorted_weaken; [|apply sort_values_sorted].
  intros a b Ha Hb. fold (low_expr g) in Ha, Hb.
  apply low_row_fin in Ha as [ma Ea], Hb as [mb Eb].
  apply value_le_asc_fleb; congruence.
Qed.


Lemma NoDup_two_filters {A B : Type} (f : A -> B) (p q : A -> bool) (l : list A) :
  (forall x, p x = true -> q x = false) ->
  NoDup (map f l) ->
  NoDup (map f (filter p l) ++ map f (filter q l)).
Proof.
  intros Hpq. induction l as [|x l IH]; simpl; intros Hnd; [constructor|].
  apply NoDup_cons_iff in Hnd as [Hx Hnd]. specialize (IH Hnd).
  assert (Hout : ~ In (f x) (map f (filter p l) ++ map f (filter q l))).
  { intros Hin. apply Hx. apply in_app_or in Hin.
    destruct Hin as [Hin|Hin]; apply in_map_iff in Hin as (y & Ey & Hy);
      apply filter_In in Hy as [Hy _]; apply in_map_iff; eauto. }
  destruct (p x) eqn:Ep.
  - rewrite (Hpq x Ep). simpl. now constructor.
  - destruct (q x); [|assumption]. simpl.
    apply (Permutation_NoDup (Permutation_middle _ _ _)). now constructor.
Qed.

Lemma above_not_below (v : float64) :
  fgtb v (Fin 1) = true -> fltb v (Fin (-1)) = false.
Proof.
  unfold fgtb. destruct v; simpl; try discriminate; try reflexivity.
  rdec; try reflexivity; try discriminate. lra.
Qed.

End ClassificationClaims.

Section UndefinedClaims.

Import TCGA_API Spec Scenario.
Local Open Scope R_scope.





End UndefinedClaims.

Section TwoCohorts.

Import TCGA_API Spec Scenario.
Local Open Scope R_scope.













End TwoCohorts.

Section OutlierScenario.

Import TCGA_API Spec Scenario.
Local Open Scope R_scope.

Lemma Int_part_IZR (n : Z) : Int_part (IZR n) = n.
Proof.
  unfold Int_part.
  rewrite <- (up_tech (IZR n) n); [lia | lra |].
  rewrite plus_IZR. lra.
Qed.

Lemma rint_IZR (n : Z) : rint (IZR n) = n.
Proof.
  unfold rint. rewrite Int_part_IZR.
  destruct (Rlt_dec (IZR n - IZR n) (1 / 2)); [reflexivity | lra].
Qed.

(** An integer is its own rounding. *)
Lemma round3_IZR (n : Z) : round (Fin (IZR n)) 3 = Fin (IZR n).
Proof.
  unfold round.
  replace (IZR n * 10 ^ 3) with (IZR (n * 1000)) by (rewrite mult_IZR; simpl; lra).
  rewrite rint_IZR, mult_IZR. f_equal. simpl. field.
Qed.

Lemma outlier_std : Series_std (map mean outlier_cohorts) = Fin (15 / 2).
Proof.
  change (map mean outlier_cohorts) with (map Fin [20; 5; 5; 5]).
  rewrite Series_std_fin by (simpl; lia).
  f_equal. unfold sample_std_R, mean_R, sum_R. simpl.
  apply sqrt_lem_1; [|lra|].
  - match goal with |- 0 <= ?e => replace e with (225 / 4) by field end. lra.
  - field.
Qed.

Lemma outlier_mean : Series_mean (map mean outlier_cohorts) = Fin (35 / 4).
Proof.
  change (map mean outlier_cohorts) with (map Fin [20; 5; 5; 5]).
  rewrite Series_mean_fin by discriminate.
  f_equal. unfold mean_R, sum_R. simpl. field.
Qed.

Lemma outlier_zscore (name : string) (m : R) (n : nat) :
  zscore_of outlier_cohorts (stat_of name m n) = Fin ((m - 35 / 4) / (15 / 2)).
Proof.
  unfold zscore_of. rewrite outlier_std, outlier_mean. simpl.
  destruct (Req_dec_T (15 / 2) 0); [lra | reflexivity].
Qed.

(** The scenario of the specification: D(20) over A(5), B(5), C(5) is the
    one cohort of the "high" list, and the "low" list is empty. *)
Example outlier_classification :
  classify outlier_cohorts
  = mkClassification [mkEntry (CStr "D") (Fin 20) 1] [].
Proof.
  unfold classify, high_expr, low_expr, with_zscore, outlier_cohorts.
  cbn [map filter zscore].
  fold outlier_cohorts. rewrite !outlier_zscore.
  unfold fgtb. cbn [fltb].
  repeat match goal with
  | |- context [Rlt_dec ?a ?b] => destruct (Rlt_dec a b); try lra
  end.
  unfold sort_values, pd.sort_by, entry, stat_of.
  cbn [fold_right insert_by map stat mean cohort count].
  rewrite (round3_IZR 20). reflexivity.
Qed.


End OutlierScenario.

(** ** The aggregation *)

Section AggregationFacts.

Import Spec Scenario.
Local Open Scope R_scope.

Lemma dropna_idem (xs : list float64) : dropna (dropna xs) = dropna xs.
Proof.
  unfold dropna. induction xs as [|x xs IH]; simpl; [reflexivity|].
  destruct (notna x) eqn:E; simpl; rewrite ?E, IH; reflexivity.
Qed.

Lemma Series_mean_dropna (xs : list float64) :
  Series_mean xs = Series_mean (dropna xs).
Proof. unfold Series_mean. now rewrite dropna_idem. Qed.

Lemma Series_std_dropna (xs : list float64) :
  Series_std xs = Series_std (dropna xs).
Proof. unfold Series_std, Series_var. now rewrite dropna_idem. Qed.

Lemma dropna_all (xs : list float64) :
  forallb notna xs = true -> dropna xs = xs.
Proof.
  unfold dropna. induction xs as [|x xs IH]; simpl; [reflexivity|].
  intros H. apply andb_true_iff in H as [-> H]. now rewrite IH.
Qed.

Lemma to_numeric_all_inv (cs : list cell) (vals : list float64) :
  to_numeric_all cs = inr vals -> cs = map CNum vals.
Proof.
  revert vals. induction cs as [|c cs IH]; simpl; intros vals H.
  - injection H as <-. reflexivity.
  - destruct c as [s|x]; simpl in H; [discriminate|].
    destruct (to_numeric_all cs) as [e|vs]; simpl in H; [discriminate|].
    injection H as <-. simpl. now rewrite (IH vs).
Qed.

Lemma combine_map_both {A B C : Type} (f : A -> B) (g : A -> C) (l : list A) :
  combine (map f l) (map g l) = map (fun a => (f a, g a)) l.
Proof. induction l as [|a l IH]; simpl; [reflexivity | now rewrite IH]. Qed.

Lemma combine_map_r {A B C : Type} (h : B -> C) (l1 : list A) (l2 : list B) :
  combine l1 (map h l2) = map (fun ab => (fst ab, h (snd ab))) (combine l1 l2).
Proof.
  revert l2. induction l1 as [|a l1 IH]; intros [|b l2]; simpl; try reflexivity.
  now rewrite IH.
Qed.

Lemma in_group_keys (keyed : list (cell * float64)) (k : cell) :
  In k (group_keys keyed) <-> isna k = false /\ In k (map fst keyed).
Proof.
  unfold group_keys. split.
  - intros H. apply (Permutation_in _ (sort_by_perm _ _)) in H.
    apply nodup_In, filter_In in H as [H1 H2].
    split; [now apply negb_true_iff | assumption].
  - intros [H1 H2].
    apply (Permutation_in _ (Permutation_sym (sort_by_perm _ _))).
    apply nodup_In, filter_In. split; [assumption | now apply negb_true_iff].
Qed.

Lemma group_keys_nodup (keyed : list (cell * float64)) :
  NoDup (group_keys keyed).
Proof.
  unfold group_keys.
  eapply Permutation_NoDup; [apply Permutation_sym, sort_by_perm|].
  apply NoDup_nodup.
Qed.

Lemma agg_cohorts (keyed : list (cell * float64)) :
  map cohort (agg_mean_std_count keyed) = group_keys keyed.
Proof.
  unfold agg_mean_std_count. rewrite map_map. simpl. apply map_id.
Qed.

Lemma in_agg (keyed : list (cell * float64)) (r : StatRow) :
  In r (agg_mean_std_count keyed) ->
  r = mkStatRow (cohort r)
        (Series_mean (group_values keyed (cohort r)))
        (Series_std (group_values keyed (cohort r)))
        (Series_count (group_values keyed (cohort r))).
Proof.
  unfold agg_mean_std_count. intros H.
  apply in_map_iff in H as (k & <- & _). reflexivity.
Qed.

Lemma group_values_length (keyed : list (cell * float64)) (k : cell) :
  List.length (group_values keyed k) = row_count keyed k.
Proof. unfold group_values, row_count. apply length_map. Qed.

Lemma groupby_agg_inv (df : DataFrame) (by_ value : string) (stats : list StatRow) :
  groupby_agg df by_ value = inr stats ->
  exists ki vi keyed,
    get_loc by_ (columns df) = Some ki /\
    get_loc value (columns df) = Some vi /\
    map (fun kv => (fst kv, CNum (snd kv))) keyed
    = map (fun row => (cell_at ki row, cell_at vi row)) (rows df) /\
    stats = agg_mean_std_count keyed.
Proof.
  unfold groupby_agg, column_loc. intros H.
  destruct (get_loc by_ (columns df)) as [ki|]; simpl in H; [|discriminate].
  destruct (get_loc value (columns df)) as [vi|]; simpl in H; [|discriminate].
  destruct (to_numeric_all _) as [e|vals] eqn:Ev; simpl in H; [discriminate|].
  injection H as <-.
  apply to_numeric_all_inv in Ev.
  exists ki, vi, (combine (map (cell_at ki) (rows df)) vals).
  repeat split.
  rewrite <- combine_map_r, <- Ev. apply combine_map_both.
Qed.

(** C7, as stated, fails on the count: of the two rows of cohort A in
    [missing_value_df] only the one with a value is counted. *)
Lemma C7_count_skips_missing_values :
  exists r,
    groupby_agg missing_value_df "cohort" "expression_log2" = inr [r] /\
    cohort r = CStr "A" /\
    count r = 1%nat /\
    map (cell_at 0) (rows missing_value_df) = [CStr "A"; CStr "A"] /\
    row_count [(CStr "A", Fin 1); (CStr "A", NaN)] (CStr "A") = 2%nat.
Proof.
  eexists. split; [reflexivity|].
  repeat split.
Qed.

(** C7, amended. A successful aggregation has one row per cohort label of
    the dataset (missing labels apart). The row of a cohort is computed
    from the values of its rows that are not missing: [count] is their
    number (the number of the cohort's rows when none is missing), [mean]
    their arithmetic mean, [std] their sample standard deviation with the
    denominator [count - 1]; with [count] 1 (or 0) the standard deviation
    is NaN, not 0. *)
Theorem C7_group_statistics (df : DataFrame) (stats : list StatRow) :
  groupby_agg df "cohort" "expression_log2" = inr stats ->
  exists ki vi keyed,
    get_loc "cohort" (columns df) = Some ki /\
    get_loc "expression_log2" (columns df) = Some vi /\
    map (fun kv => (fst kv, CNum (snd kv))) keyed
    = map (fun row => (cell_at ki row, cell_at vi row)) (rows df) /\
    NoDup (map cohort stats) /\
    (forall k, In k (map cohort stats) <-> isna k = false /\ In k (map fst keyed)) /\
    (forall r, In r stats ->
       let vs := dropna (group_values keyed (cohort r)) in
       count r = List.length vs /\
       (count r <= row_count keyed (cohort r))%nat /\
       (forallb notna (group_values keyed (cohort r)) = true ->
        count r = row_count keyed (cohort r)) /\
       (count r = 0%nat -> mean r = NaN) /\
       ((count r <= 1)%nat -> std r = NaN /\ std r <> Fin 0) /\
       (forall xs, vs = map Fin xs -> xs <> [] -> mean r = Fin (mean_R xs)) /\
       (forall xs, vs = map Fin xs -> (2 <= List.length xs)%nat ->
                   std r = Fin (sample_std_R xs))).
Proof.
  intros H.
  apply groupby_agg_inv in H as (ki & vi & keyed & Hk & Hv & Hrows & ->).
  exists ki, vi, keyed.
  split; [assumption|]. split; [assumption|]. split; [assumption|].
  rewrite agg_cohorts.
  split; [apply group_keys_nodup|].
  split; [apply in_group_keys|].
  intros r Hr vs. apply in_agg in Hr.
  set (gv := group_values keyed (cohort r)) in *.
  assert (Ec : count r = List.length vs) by (rewrite Hr; reflexivity).
  assert (Em : mean r = Series_mean gv) by (rewrite Hr; reflexivity).
  assert (Es : std r = Series_std gv) by (rewrite Hr; reflexivity).
  clear Hr.
  split; [exact Ec|].
  split.
  { rewrite Ec, <- group_values_length. apply filter_length_le. }
  split.
  { intros Hall. rewrite Ec, <- group_values_length.
    unfold vs. fold gv. now rewrite dropna_all. }
  split.
  { intros H0. rewrite Em. unfold Series_mean. fold vs.
    rewrite <- Ec, H0. reflexivity. }
  split.
  { intros H1. rewrite Es, Series_std_short; [split; [reflexivity | discriminate]|].
    unfold Series_count. fold vs. lia. }
  split.
  - intros xs Hxs Hne. rewrite Em, Series_mean_dropna. fold vs. rewrite Hxs.
    now apply Series_mean_fin.
  - intros xs Hxs Hlen. rewrite Es, Series_std_dropna. fold vs. rewrite Hxs.
    now apply Series_std_fin.
Qed.

Lemma C7_group_statistics_witness :
  exists ki vi keyed,
    get_loc "cohort" (columns missing_value_df) = Some ki /\
    get_loc "expression_log2" (columns missing_value_df) = Some vi /\
    map (fun kv => (fst kv, CNum (snd kv))) keyed
    = map (fun row => (cell_at ki row, cell_at vi row)) (rows missing_value_df) /\
    NoDup (map cohort (agg_mean_std_count [(CStr "A", Fin 1); (CStr "A", NaN)])).
Proof.
  destruct (C7_group_statistics missing_value_df
              (agg_mean_std_count [(CStr "A", Fin 1); (CStr "A", NaN)])
              eq_refl)
    as (ki & vi & keyed & H1 & H2 & H3 & H4 & _).
  exists ki, vi, keyed. auto.
Defined.

End AggregationFacts.

(** ** The classification of aggregated statistics *)

Section AggregatedClassification.

Import TCGA_API Scenario.

Lemma aggregate_cohorts_nodup (final_df : DataFrame) (df_grouped : list StatRow) :
  aggregate final_df = inr df_grouped -> NoDup (map cohort df_grouped).
Proof.
  unfold aggregate. intros H.
  destruct (groupby_agg final_df "cohort" "expression_log2") as [e|stats] eqn:E;
    simpl in H; [discriminate|].
  injection H as <-.
  apply groupby_agg_inv in E as (ki & vi & keyed & _ & _ & _ & ->).
  eapply Permutation_NoDup.
  - apply Permutation_map, Permutation_sym, sort_values_perm.
  - rewrite agg_cohorts. apply group_keys_nodup.
Qed.

(** C8. With one row per cohort in the statistics, the cohort labels of the
    "high" list followed by those of the "low" list have no repetition: no
    label is in both lists and none is twice in one. The statistics that
    line 51 computes always have one row per cohort. *)
Theorem C8_disjoint_no_duplicates :
  (forall g : list StatRow,
     NoDup (map cohort g) ->
     NoDup (map cancer_type (high_expression_cancers (classify g))
            ++ map cancer_type (low_expression_cancers (classify g)))) /\
  (forall final_df df_grouped,
     aggregate final_df = inr df_grouped ->
     NoDup (map cancer_type (high_expression_cancers (classify df_grouped))
            ++ map cancer_type (low_expression_cancers (classify df_grouped)))).
Proof.
  assert (G : forall g : list StatRow,
     NoDup (map cohort g) ->
     NoDup (map cancer_type (high_expression_cancers (classify g))
            ++ map cancer_type (low_expression_cancers (classify g)))).
  { intros g Hnd. simpl.
    assert (E : forall l, map cancer_type (map entry l) = map cohort (map stat l)).
    { intros l. rewrite !map_map. reflexivity. }
    rewrite !E.
    eapply Permutation_NoDup.
    - apply Permutation_sym. apply Permutation_app.
      + apply Permutation_map, high_expr_perm.
      + apply Permutation_map, low_expr_perm.
    - apply NoDup_two_filters; [|assumption].
      intros r. apply above_not_below. }
  split; [exact G|].
  intros final_df df_grouped H. apply G. now apply (aggregate_cohorts_nodup final_df).
Qed.

Lemma C8_disjoint_no_duplicates_witness :
  NoDup (map cancer_type (high_expression_cancers (classify outlier_cohorts))
         ++ map cancer_type (low_expression_cancers (classify outlier_cohorts))).
Proof.
  apply (proj1 C8_disjoint_no_duplicates).
  repeat constructor; simpl; intuition discriminate.
Defined.

End AggregatedClassification.

(** ** The pagination loop *)

Section FetchFacts.

Import TCGA_API.

Variable session_get : Params -> Exc Response.
Variable read_csv : string -> bool -> Exc DataFrame.
Variable gene : string.

Local Abbreviation body := (loop_body session_get read_csv gene).
Local Abbreviation loop := (fun fuel => fetch_loop session_get read_csv fuel gene).
Local Abbreviation reach := (fun n => after session_get read_csv n gene).
Local Abbreviation Inv := (loop_invariant session_get read_csv gene).


Lemma loop_after (n fuel : nat) (s s' : LoopState) :
  reach n s = Some s' -> loop (n + fuel) s = loop fuel s'.
Proof.
  revert s.
  induction n as [|n IH]; simpl; intros s H.
  - now injection H as <-.
  - destruct (loop_body session_get read_csv gene s) as [s1|done];
      [now apply IH | discriminate].
Qed.

Lemma loop_stops (fuel : nat) (s : LoopState) (r : Fetched) :
  loop fuel s = Some r ->
  exists n s', (n < fuel)%nat /\ reach n s = Some s' /\ body s' = inr r.
Proof.
  revert s.
  induction fuel as [|fuel IH]; simpl; intros s H; [discriminate|].
  destruct (loop_body session_get read_csv gene s) as [s1|done] eqn:E.
  - destruct (IH s1 H) as (n & s' & Hn & Hr & Hb).
    exists (S n), s'. simpl. rewrite E. repeat split; [lia | assumption | assumption].
  - injection H as <-. exists O, s. simpl. repeat split; [lia | assumption].
Qed.

Lemma nth_error_snoc {A : Type} (l : list A) (x y : A) (i : nat) :
  nth_error (l ++ [x]) i = Some y ->
  nth_error l i = Some y \/ (i = List.length l /\ y = x).
Proof.
  intros H. destruct (Nat.lt_ge_cases i (List.length l)) as [Hlt|Hge].
  - left. now rewrite nth_error_app1 in H.
  - right. rewrite nth_error_app2 in H by assumption.
    destruct (i - List.length l)%nat as [|k] eqn:Ek; simpl in H.
    + injection H as <-. split; [lia | reflexivity].
    + destruct k; discriminate.
Qed.

Lemma set_columns_inv (df df' : DataFrame) (cols : list string) :
  set_columns df cols = inr df' ->
  List.length cols = List.length (columns df) /\
  columns df' = cols /\ rows df' = rows df.
Proof.
  unfold set_columns.
  destruct (Nat.eqb_spec (List.length cols) (List.length (columns df))) as [E|_];
    simpl; [|discriminate].
  intros [= <-]. auto.
Qed.

Lemma body_preserves (s s' : LoopState) :
  Inv s -> body s = inl s' -> Inv s'.
Proof.
  unfold loop_invariant, loop_body.
  intros (Hpage & Hreq & Hkept & Hcols).
  destruct (session_get _) as [e|resp] eqn:Eget; [discriminate|].
  destruct (status_code resp =? 200)%Z eqn:Est; simpl; [|discriminate].
  apply Z.eqb_eq in Est.
  destruct (falsy _ || startswith _ _) eqn:Eblank; [discriminate|].
  rewrite Hpage in Eget.
  assert (Hseq : map (params_at gene) (seq 1 (List.length (all_data s)))
                   ++ [params_at gene (S (List.length (all_data s)))]
                 = map (params_at gene) (seq 1 (S (List.length (all_data s))))).
  { rewrite seq_S, map_app. reflexivity. }
  destruct (Nat.eqb_spec (params_page s) 1) as [E1|E1].
  - assert (Hnil : all_data s = []).
    { destruct (all_data s); [reflexivity | simpl in Hpage; lia]. }
    destruct (read_csv _ true) as [e|df] eqn:Ecsv; [discriminate|].
    intros [= <-]. simpl. rewrite Hnil in *. simpl in *.
    split; [lia|]. split; [rewrite Hreq, E1; reflexivity|]. split.
    + intros i d Hi. destruct i as [|i]; simpl in Hi; [|destruct i; discriminate].
      injection Hi as <-. exists resp, df. repeat split; assumption.
    + split; [reflexivity | repeat constructor].
  - destruct (read_csv _ false) as [e|df] eqn:Ecsv; simpl; [discriminate|].
    destruct (columns_var s) as [cols|] eqn:Ecols; simpl; [|discriminate].
    destruct (set_columns df cols) as [e|df'] eqn:Eset; [discriminate|].
    apply set_columns_inv in Eset as (Hlen & Hc & Hr).
    intros [= <-]. simpl. rewrite length_app. simpl.
    rewrite !Nat.add_1_r.
    split; [lia|]. split; [rewrite Hreq, Hpage; exact Hseq|].
    destruct (all_data s) as [|df1 rest] eqn:Edata; [simpl in Hpage; lia|].
    destruct Hcols as [Hc1 Hall]. injection Hc1 as ->.
    split.
    + intros i d Hi. rewrite <- Edata in Hi.
      apply nth_error_snoc in Hi as [Hi | [-> ->]].
      * apply Hkept. now rewrite <- Edata.
      * exists resp, df. rewrite Edata. simpl.
        repeat split; try assumption; congruence.
    + simpl. split; [reflexivity|].
      change (df1 :: rest ++ [df']) with ((df1 :: rest) ++ [df']).
      apply Forall_app. split; [assumption | now repeat constructor].
Qed.

Lemma initial_invariant : Inv initial.
Proof.
  unfold loop_invariant. simpl. repeat split.
  intros [|i] df H; discriminate.
Qed.

Lemma after_invariant (n : nat) (s s' : LoopState) :
  Inv s -> reach n s = Some s' -> Inv s'.
Proof.
  revert s.
  induction n as [|n IH]; simpl; intros s Hs H.
  - now injection H as <-.
  - destruct (loop_body session_get read_csv gene s) as [s1|done] eqn:E;
      [|discriminate].
    apply (IH s1); [|assumption]. now apply (body_preserves s).
Qed.

Lemma after_length (n : nat) (s : LoopState) :
  reach n initial = Some s -> List.length (all_data s) = n.
Proof.
  assert (G : forall n s0 s, reach n s0 = Some s ->
              List.length (all_data s) = (List.length (all_data s0) + n)%nat).
  { clear n s. induction n as [|n IH]; simpl; intros s0 s H.
    - injection H as <-. lia.
    - destruct (loop_body session_get read_csv gene s0) as [s1|done] eqn:E;
        [|discriminate].
      rewrite (IH s1 s H).
      unfold loop_body in E.
      repeat match type of E with
      | match ?c with _ => _ end = _ => destruct c; try discriminate
      | (if ?c then _ else _) = _ => destruct c; try discriminate
      end; injection E as <-; simpl; rewrite length_app; simpl; lia. }
  intros H. apply G in H. simpl in H. exact H.
Qed.

Lemma body_break (s : LoopState) (resp : Response) :
  session_get (params_at gene (params_page s)) = inr resp ->
  status_code resp <> 200%Z \/
  falsy (strip (text resp)) || startswith (strip (text resp)) "No records" = true ->
  body s = inr (requests s ++ [params_at gene (params_page s)], inr (all_data s)).
Proof.
  unfold loop_body. intros -> H.
  destruct (Z.eqb_spec (status_code resp) 200) as [E|E]; simpl; [|reflexivity].
  destruct H as [H|H]; [contradiction|]. now rewrite H.
Qed.

Lemma body_first (s : LoopState) (resp : Response) (df : DataFrame) :
  params_page s = 1%nat ->
  session_get (params_at gene 1) = inr resp ->
  status_code resp = 200%Z ->
  falsy (strip (text resp)) || startswith (strip (text resp)) "No records" = false ->
  read_csv (strip (text resp)) true = inr df ->
  body s = inl (mkLoopState 2 (Some (columns df)) (all_data s ++ [df])
                            (requests s ++ [params_at gene 1])).
Proof.
  unfold loop_body. intros -> -> -> Hb ->. simpl. now rewrite Hb.
Qed.

Lemma body_later (s : LoopState) (resp : Response) (df : DataFrame)
    (cols : list string) :
  params_page s <> 1%nat ->
  session_get (params_at gene (params_page s)) = inr resp ->
  status_code resp = 200%Z ->
  falsy (strip (text resp)) || startswith (strip (text resp)) "No records" = false ->
  read_csv (strip (text resp)) false = inr df ->
  columns_var s = Some cols ->
  body s =
    if (List.length cols =? List.length (columns df))%nat
    then inl (mkLoopState (params_page s + 1) (Some cols)
                          (all_data s ++ [mkDataFrame cols (rows df)])
                          (requests s ++ [params_at gene (params_page s)]))
    else inr (requests s ++ [params_at gene (params_page s)],
              inl (ValueError_LengthMismatch (List.length (columns df))
                                             (List.length cols))).
Proof.
  unfold loop_body. intros Hp -> -> Hb -> ->. simpl. rewrite Hb.
  destruct (Nat.eqb_spec (params_page s) 1) as [|_]; [contradiction|].
  simpl. unfold set_columns.
  destruct (List.length cols =? List.length (columns df))%nat; reflexivity.
Qed.

Lemma fetch_from (n fuel : nat) (s : LoopState) (r : Fetched) :
  reach n initial = Some s -> body s = inr r -> (n < fuel)%nat ->
  fetch session_get read_csv fuel gene = Some r.
Proof.
  intros Hr Hb Hlt. unfold fetch.
  replace fuel with (n + S (fuel - S n))%nat by lia.
  rewrite (loop_after _ _ _ _ Hr). simpl. now rewrite Hb.
Qed.

Lemma reached_requests (n : nat) (s : LoopState) :
  reach n initial = Some s ->
  params_page s = S n /\
  requests s ++ [params_at gene (params_page s)]
  = map (params_at gene) (seq 1 (S n)).
Proof.
  intros Hr.
  pose proof (after_length _ _ Hr) as Hlen.
  destruct (after_invariant n initial s initial_invariant Hr) as (Hp & Hq & _).
  rewrite Hlen in *. split; [assumption|].
  rewrite Hq, Hp, seq_S, map_app. reflexivity.
Qed.


(** C5. A page after the first whose parsed frame has another number of
    columns than the frame of page 1 makes the fetch, and with it the
    method, fail: the assignment of the stored labels raises the length
    mismatch of pandas, and no frame of that page is kept. *)
Theorem C5_column_count_mismatch (n : nat) (s : LoopState) (resp : Response)
    (df df1 : DataFrame) :
  after session_get read_csv n gene initial = Some s ->
  hd_error (all_data s) = Some df1 ->
  session_get (params_at gene (S n)) = inr resp ->
  status_code resp = 200%Z ->
  falsy (strip (text resp)) || startswith (strip (text resp)) "No records" = false ->
  read_csv (strip (text resp)) false = inr df ->
  List.length (columns df) <> List.length (columns df1) ->
  forall fuel, (n < fuel)%nat ->
    fetch session_get read_csv fuel gene
    = Some (map (params_at gene) (seq 1 (S n)),
            inl (ValueError_LengthMismatch (List.length (columns df))
                                           (List.length (columns df1)))) /\
    get_gene_specific_expression_in_cancer_type session_get read_csv fuel gene
    = Some (inl (ValueError_LengthMismatch (List.length (columns df))
                                           (List.length (columns df1)))).
Proof.
  intros Hr Hhd Hget Hst Hb Hcsv Hne fuel Hfuel.
  destruct (reached_requests n s Hr) as [Hp Hq].
  pose proof (after_length _ _ Hr) as Hlen.
  destruct (after_invariant n initial s initial_invariant Hr) as (_ & _ & _ & Hc).
  destruct (all_data s) as [|d rest] eqn:Ed; [discriminate|].
  injection Hhd as ->. destruct Hc as [Hcols _].
  assert (Hn : params_page s <> 1%nat) by (simpl in Hlen; lia).
  rewrite <- Hp in Hget.
  pose proof (body_later s resp df (columns df1) Hn Hget Hst Hb Hcsv Hcols) as Hbody.
  destruct (Nat.eqb_spec (List.length (columns df1)) (List.length (columns df)))
    as [E|_]; [congruence|].
  rewrite Hq in Hbody.
  assert (Hf := fetch_from n fuel s _ Hr Hbody Hfuel).
  split; [exact Hf|].
  unfold get_gene_specific_expression_in_cancer_type. now rewrite Hf.
Qed.

Lemma body_done_inv (s : LoopState) (reqs : list Params)
    (outcome : Exc (list DataFrame)) :
  body s = inr (reqs, outcome) ->
  reqs = requests s ++ [params_at gene (params_page s)] /\
  forall data, outcome = inr data -> data = all_data s.
Proof.
  unfold loop_body. intros H.
  repeat match type of H with
  | match ?c with _ => _ end = _ => destruct c; try discriminate
  | (if ?c then _ else _) = _ => destruct c; try discriminate
  end; injection H as <- <-; (split; [reflexivity|]);
    intros data Hd; congruence.
Qed.

Lemma bind_final_df_spec (data : list DataFrame) :
  match bind_final_df data with
  | None => data = []
  | Some final =>
      exists df1 rest, data = df1 :: rest /\
        columns final = columns df1 /\
        rows final = flat_map rows data
  end.
Proof. destruct data as [|df1 rest]; simpl; eauto. Qed.

(** C6. A fetch that ends has requested the pages 1, 2, ..., in this order
    and with the other parameters fixed. When it ends without exception,
    all requests but the last produced a frame, frame [i] holding the rows
    parsed from page [i + 1] under the labels of page 1, and [final_df] has
    the labels of page 1 over the rows of the frames, in page order. In the
    scenario of 2000 rows on page 1, 2000 rows without header on page 2 and
    an empty page 3, [final_df] has 4000 rows, those of page 1 followed by
    those of page 2, under the labels of page 1. *)
Theorem C6_pages_in_order_and_concatenated :
  (forall fuel reqs outcome,
     fetch session_get read_csv fuel gene = Some (reqs, outcome) ->
     exists n,
       reqs = map (params_at gene) (seq 1 (S n)) /\
       (forall q, In q reqs ->
          q = mkParams "tsv" gene "TM,TP,TR" "RSEM" 2000 (page q) "cohort") /\
       forall data, outcome = inr data ->
         List.length data = n /\
         (forall i df, nth_error data i = Some df ->
                       kept session_get read_csv gene i df) /\
         match bind_final_df data with
         | None => data = []
         | Some final =>
             exists df1 rest, data = df1 :: rest /\
               Forall (fun df => columns df = columns df1) data /\
               columns final = columns df1 /\
               rows final = flat_map rows data
         end) /\
  (forall r1 r2 r3 df1 df2,
     session_get (params_at gene 1) = inr r1 ->
     status_code r1 = 200%Z ->
     falsy (strip (text r1)) || startswith (strip (text r1)) "No records" = false ->
     read_csv (strip (text r1)) true = inr df1 ->
     List.length (rows df1) = 2000%nat ->
     List.length (columns df1) = 5%nat ->
     session_get (params_at gene 2) = inr r2 ->
     status_code r2 = 200%Z ->
     falsy (strip (text r2)) || startswith (strip (text r2)) "No records" = false ->
     read_csv (strip (text r2)) false = inr df2 ->
     List.length (rows df2) = 2000%nat ->
     List.length (columns df2) = 5%nat ->
     session_get (params_at gene 3) = inr r3 ->
     status_code r3 = 200%Z ->
     strip (text r3) = EmptyString ->
     forall fuel, (3 <= fuel)%nat ->
     exists final,
       fetch session_get read_csv fuel gene
       = Some (map (params_at gene) [1; 2; 3]%nat,
               inr [df1; mkDataFrame (columns df1) (rows df2)]) /\
       bind_final_df [df1; mkDataFrame (columns df1) (rows df2)] = Some final /\
       columns final = columns df1 /\
       rows final = rows df1 ++ rows df2 /\
       List.length (rows final) = 4000%nat).
Proof.
  split.
  - intros fuel reqs outcome H.
    apply loop_stops in H as (n & s & _ & Hr & Hb).
    destruct (reached_requests n s Hr) as [Hp Hq].
    pose proof (after_length _ _ Hr) as Hlen.
    destruct (after_invariant n initial s initial_invariant Hr)
      as (_ & _ & Hk & Hc).
    apply body_done_inv in Hb as [-> Hdata].
    exists n. split; [exact Hq|]. split.
    { rewrite Hq. intros q Hin. apply in_map_iff in Hin as (p & <- & _).
      reflexivity. }
    intros data Hd. rewrite (Hdata data Hd).
    split; [exact Hlen|]. split; [exact Hk|].
    pose proof (bind_final_df_spec (all_data s)) as Hf.
    destruct (bind_final_df (all_data s)) as [final|]; [|exact Hf].
    destruct Hf as (df1 & rest & Ed & Hcf & Hrf).
    exists df1, rest. rewrite Ed in Hc. destruct Hc as [_ Hall].
    rewrite <- Ed in Hall. auto.
  - intros r1 r2 r3 df1 df2 G1 S1 B1 C1 R1 W1 G2 S2 B2 C2 R2 W2 G3 S3 B3
           fuel Hfuel.
    pose proof (body_first initial r1 df1 eq_refl G1 S1 B1 C1) as H1.
    cbn [all_data requests initial app] in H1.
    set (s1 := mkLoopState 2 (Some (columns df1)) [df1] [params_at gene 1]) in *.
    assert (H2 := body_later s1 r2 df2 (columns df1)).
    cbn [s1 params_page columns_var all_data requests] in H2.
    specialize (H2 ltac:(lia) G2 S2 B2 C2 eq_refl).
    rewrite W1, W2 in H2. cbn [Nat.eqb Nat.add app] in H2.
    set (s2 := mkLoopState 3 (Some (columns df1))
                 [df1; mkDataFrame (columns df1) (rows df2)]
                 [params_at gene 1; params_at gene 2]) in *.
    assert (H3 : loop_body session_get read_csv gene s2
                 = inr (requests s2 ++ [params_at gene 3], inr (all_data s2))).
    { apply (body_break s2 r3); [exact G3 | right; now rewrite B3]. }
    assert (Hr : after session_get read_csv 2 gene initial = Some s2).
    { simpl. rewrite H1, H2. reflexivity. }
    exists (concat [df1; mkDataFrame (columns df1) (rows df2)]).
    split; [exact (fetch_from 2 fuel s2 _ Hr H3 Hfuel)|].
    split; [reflexivity|]. split; [reflexivity|].
    simpl. rewrite app_nil_r. split; [reflexivity|].
    rewrite length_app, R1, R2. reflexivity.
Qed.

End FetchFacts.

(** ** The tool *)

Section ToolFacts.

Import TCGA_API.




Variable session_get : Params -> Exc Response.
Variable read_csv : string -> bool -> Exc DataFrame.
Variable str : exception -> string.
Variable gene : string.



End ToolFacts.


(** ** The claims on concrete remotes *)

Section ConcreteRuns.

Import TCGA_API Scenario.



Lemma C5_column_count_mismatch_witness :
  get_gene_specific_expression_in_cancer_type
    (serve page_then_narrow) tsv_reader 4 "TP53"
  = Some (inl (ValueError_LengthMismatch 4 5)).
Proof.
  refine (proj2 (C5_column_count_mismatch
                   (serve page_then_narrow) tsv_reader "TP53" 1
                   (mkLoopState 2 (Some header5)
                      [mkDataFrame header5 [map CStr record5]]
                      [params_at "TP53" 1])
                   (mkResponse 200 (body [record4; record4]))
                   (mkDataFrame [EmptyString; EmptyString; EmptyString; EmptyString]
                      [map CStr record4; map CStr record4])
                   (mkDataFrame header5 [map CStr record5])
                   _ _ _ _ _ _ _ 4 _)).
  - vm_compute. reflexivity.
  - reflexivity.
  - reflexivity.
  - reflexivity.
  - vm_compute. reflexivity.
  - vm_compute. reflexivity.
  - simpl. lia.
  - lia.
Defined.

Lemma C6_pages_in_order_and_concatenated_witness :
  exists final,
    fetch (serve three_pages) tsv_reader 3 "TP53"
    = Some (map (params_at "TP53") [1; 2; 3]%nat,
            inr [mkDataFrame header5 (repeat (map CStr record5) 2000);
                 mkDataFrame header5 (repeat (map CStr record5) 2000)]) /\
    bind_final_df [mkDataFrame header5 (repeat (map CStr record5) 2000);
                   mkDataFrame header5 (repeat (map CStr record5) 2000)]
    = Some final /\
    columns final = header5 /\
    rows final = repeat (map CStr record5) 2000 ++ repeat (map CStr record5) 2000 /\
    List.length (rows final) = 4000%nat.
Proof.
  refine (proj2 (C6_pages_in_order_and_concatenated
                   (serve three_pages) tsv_reader "TP53")
                (mkResponse 200 (body (header5 :: repeat record5 2000)))
                (mkResponse 200 (body (repeat record5 2000)))
                (mkResponse 200 EmptyString)
                (mkDataFrame header5 (repeat (map CStr record5) 2000))
                (mkDataFrame (repeat EmptyString 5) (repeat (map CStr record5) 2000))
                _ _ _ _ _ _ _ _ _ _ _ _ _ _ _ 3 _);
    first [lia | reflexivity | vm_compute; reflexivity].
Defined.


End ConcreteRuns.

(** ** One run from the remote to the returned dict *)

Section EndToEnd.

Import TCGA_API Spec Scenario.
Local Open Scope R_scope.

Lemma outlier_groupby :
  groupby_agg outlier_df "cohort" "expression_log2"
  = inr [stat_of "A" 5 1; stat_of "B" 5 1; stat_of "C" 5 1; stat_of "D" 20 1].
Proof.
  unfold groupby_agg, outlier_df, stat_of. cbn.
  destruct (Req_dec_T 1 0) as [|_]; [lra|].
  repeat f_equal; lra.
Qed.

Lemma outlier_aggregate : aggregate outlier_df = inr outlier_cohorts.
Proof.
  unfold aggregate. rewrite outlier_groupby.
  unfold sort_values, pd.sort_by, stat_of, value_le.
  repeat (cbn; match goal with
               | |- context [Rle_dec ?a ?b] => destruct (Rle_dec a b); try lra
               end).
  reflexivity.
Qed.

(** The whole tool on a remote that serves this dataset on one page. *)
Example outlier_end_to_end :
  server.get_gene_specific_expression_in_cancer_type
    (serve [mkResponse 200 "one page"]) (canned_reader "one page" outlier_df)
    class_name 2 "TP53"
  = Some (server.Result (mkClassification [mkEntry (CStr "D") (Fin 20) 1] [])).
Proof.
  unfold server.get_gene_specific_expression_in_cancer_type,
         get_gene_specific_expression_in_cancer_type.
  change (fetch (serve [mkResponse 200 "one page"])
                (canned_reader "one page" outlier_df) 2 "TP53")
    with (Some ([params_at "TP53" 1; params_at "TP53" 2], inr [outlier_df]
                : Exc (list DataFrame))).
  unfold analyse. cbn [bind_final_df read_local].
  change (concat [outlier_df]) with outlier_df.
  cbn [bind ret Monad_either]. rewrite outlier_aggregate.
  rewrite outlier_classification. reflexivity.
Qed.

End EndToEnd.

(* ===================================================================== *)
(** * Further properties of the code *)
(* ===================================================================== *)

(** ** More on the pagination loop *)

Section LoopEnds.

Import TCGA_API.

Variable session_get : Params -> Exc Response.
Variable read_csv : string -> bool -> Exc DataFrame.
Variable gene : string.

Local Abbreviation body := (loop_body session_get read_csv gene).

Lemma body_break_inv (s : LoopState) (reqs : list Params) (data : list DataFrame) :
  body s = inr (reqs, inr data) ->
  exists resp,
    session_get (params_at gene (params_page s)) = inr resp /\
    (status_code resp <> 200%Z \/
     falsy (strip (text resp)) = true \/
     startswith (strip (text resp)) "No records" = true).
Proof.
  unfold loop_body. intros H.
  destruct (session_get _) as [e|resp]; [discriminate|].
  exists resp. split; [reflexivity|].
  destruct (Z.eqb_spec (status_code resp) 200) as [E|E]; [|now left].
  right. simpl in H.
  destruct (falsy _) eqn:Ef; [now left|]. right.
  destruct (startswith _ _) eqn:Es; [reflexivity|]. simpl in H.
  repeat match type of H with
  | match ?c with _ => _ end = _ => destruct c; try discriminate
  | (if ?c then _ else _) = _ => destruct c; try discriminate
  end.
Qed.

(** After [n] kept pages, each of the three [break] conditions ends the
    fetch with what those pages accumulated. *)
Lemma break_ends_fetch (n : nat) (s : LoopState) (resp : Response) :
  after session_get read_csv n gene initial = Some s ->
  session_get (params_at gene (S n)) = inr resp ->
  (status_code resp <> 200%Z \/
   falsy (strip (text resp)) = true \/
   startswith (strip (text resp)) "No records" = true) ->
  forall fuel, (n < fuel)%nat ->
    fetch session_get read_csv fuel gene
    = Some (map (params_at gene) (seq 1 (S n)), inr (all_data s)).
Proof.
  intros Hr Hget Hc fuel Hfuel.
  destruct (reached_requests _ _ _ n s Hr) as [Hp Hq].
  apply (fetch_from _ _ _ n fuel s); [assumption | | assumption].
  rewrite <- Hq. apply (body_break _ _ _ s resp); [now rewrite Hp|].
  destruct Hc as [Hc|[Hc|Hc]]; [now left | right; now rewrite Hc |].
  right. rewrite Hc. apply orb_true_r.
Qed.

(** The loop is left without exception exactly through one of the three
    [break] conditions of lines 28-34: the page that was requested last was
    answered with a status other than 200 (a 204 or 206 counts), or with a
    body that is blank once stripped, or with a body that starts with
    "No records". Conversely, after [n] kept pages each of the three ends
    the fetch with what those pages accumulated. *)
Theorem fetch_ends_by_break_only :
  (forall fuel reqs data,
     fetch session_get read_csv fuel gene = Some (reqs, inr data) ->
     exists resp,
       session_get (params_at gene (S (List.length data))) = inr resp /\
       (status_code resp <> 200%Z \/
        falsy (strip (text resp)) = true \/
        startswith (strip (text resp)) "No records" = true)) /\
  (forall n s resp,
     after session_get read_csv n gene initial = Some s ->
     session_get (params_at gene (S n)) = inr resp ->
     (status_code resp <> 200%Z \/
      falsy (strip (text resp)) = true \/
      startswith (strip (text resp)) "No records" = true) ->
     forall fuel, (n < fuel)%nat ->
       fetch session_get read_csv fuel gene
       = Some (map (params_at gene) (seq 1 (S n)), inr (all_data s))).
Proof.
  split.
  - intros fuel reqs data H.
    apply loop_stops in H as (n & s & _ & Hr & Hb).
    destruct (reached_requests _ _ _ n s Hr) as [Hp _].
    pose proof (after_length _ _ _ _ _ Hr) as Hlen.
    pose proof (body_done_inv _ _ _ _ _ _ Hb) as [_ Hd].
    rewrite (Hd data eq_refl), Hlen, <- Hp.
    now apply (body_break_inv s reqs data).
  - intros n s resp. apply break_ends_fetch.
Qed.

End LoopEnds.

Section LoopGoesOn.

Import TCGA_API.

Variable session_get : Params -> Exc Response.
Variable read_csv : string -> bool -> Exc DataFrame.
Variable str : exception -> string.
Variable gene : string.

Local Abbreviation body := (loop_body session_get read_csv gene).

(** The loop has no page limit: against a remote that answers every page
    with status 200 and a body that is neither blank nor the sentinel, and
    that parses to a frame of always the same number of columns, the loop
    never leaves; no amount of fuel lets the fetch, the method or the tool
    return. *)
Theorem fetch_has_no_page_limit (k : nat) :
  (forall p h, exists resp df,
     session_get (params_at gene p) = inr resp /\
     status_code resp = 200%Z /\
     falsy (strip (text resp)) || startswith (strip (text resp)) "No records" = false /\
     read_csv (strip (text resp)) h = inr df /\
     List.length (columns df) = k) ->
  forall fuel,
    fetch session_get read_csv fuel gene = None /\
    get_gene_specific_expression_in_cancer_type session_get read_csv fuel gene = None /\
    server.get_gene_specific_expression_in_cancer_type
      session_get read_csv str fuel gene = None.
Proof.
  intros Hgood.
  assert (G : forall fuel s,
            params_page s = 1%nat \/
            (exists cols, columns_var s = Some cols /\ List.length cols = k) ->
            fetch_loop session_get read_csv fuel gene s = None).
  { induction fuel as [|fuel IH]; intros s Hs; [reflexivity|]. simpl.
    destruct (Nat.eq_dec (params_page s) 1) as [E1|E1].
    - destruct (Hgood 1%nat true) as (resp & df & Hget & Hst & Hb & Hcsv & Hk).
      rewrite (body_first _ _ _ s resp df E1 Hget Hst Hb Hcsv).
      apply IH. right. simpl. eauto.
    - destruct Hs as [Hs|(cols & Hcols & Hlen)]; [contradiction|].
      destruct (Hgood (params_page s) false) as (resp & df & Hget & Hst & Hb & Hcsv & Hk).
      rewrite (body_later _ _ _ s resp df cols E1 Hget Hst Hb Hcsv Hcols).
      rewrite Hlen, Hk, Nat.eqb_refl.
      apply IH. right. simpl. eauto. }
  intros fuel.
  assert (Hf : fetch session_get read_csv fuel gene = None)
    by (apply G; now left).
  unfold server.get_gene_specific_expression_in_cancer_type,
         get_gene_specific_expression_in_cancer_type.
  rewrite Hf. auto.
Qed.

(** An exception of the session or of the parser is not caught by the
    method: raised at page [n + 1] it leaves the method at once, the [n]
    pages kept so far are not analysed, and the tool returns the error
    list with the message of that exception. *)
Theorem collaborator_exception_discards_pages (n : nat) (s : LoopState)
    (e : exception) :
  after session_get read_csv n gene initial = Some s ->
  session_get (params_at gene (S n)) = inl e \/
  (exists resp,
     session_get (params_at gene (S n)) = inr resp /\
     status_code resp = 200%Z /\
     falsy (strip (text resp)) || startswith (strip (text resp)) "No records" = false /\
     read_csv (strip (text resp)) (n =? 0)%nat = inl e) ->
  forall fuel, (n < fuel)%nat ->
    fetch session_get read_csv fuel gene
    = Some (map (params_at gene) (seq 1 (S n)), inl e) /\
    get_gene_specific_expression_in_cancer_type session_get read_csv fuel gene
    = Some (inl e) /\
    server.get_gene_specific_expression_in_cancer_type
      session_get read_csv str fuel gene
    = Some (server.ErrorList
              [server.mkErrorDict
                 (String.append "An error occurred while search gene: " (str e))]).
Proof.
  intros Hr Hraise fuel Hfuel.
  destruct (reached_requests _ _ _ n s Hr) as [Hp Hq].
  assert (Hb : body s = inr (map (params_at gene) (seq 1 (S n)), inl e)).
  { rewrite <- Hq. unfold loop_body. rewrite Hp.
    destruct Hraise as [-> | (resp & -> & -> & Hblank & Hcsv)]; [reflexivity|].
    simpl. rewrite Hblank.
    destruct n as [|n]; simpl in *; rewrite Hcsv; reflexivity. }
  assert (Hf := fetch_from _ _ _ n fuel s _ Hr Hb Hfuel).
  split; [exact Hf|].
  unfold server.get_gene_specific_expression_in_cancer_type,
         get_gene_specific_expression_in_cancer_type.
  rewrite Hf. auto.
Qed.

End LoopGoesOn.

(** ** More on the statistics *)

Section MissingColumn.

Import TCGA_API.

Lemma get_loc_none (name : string) (cols : list string) :
  get_loc name cols = None <-> ~ In name cols.
Proof.
  induction cols as [|c cols IH]; simpl; [tauto|].
  destruct (String.eqb_spec c name) as [E|E].
  - split; [discriminate | intros H; exfalso; auto].
  - destruct (get_loc name cols); simpl.
    + split; [discriminate|]. intros H. exfalso. apply H. right.
      apply Decidable.not_not; [|intros Hn; now apply (proj2 IH) in Hn].
      destruct (in_dec string_dec name cols); [now left | now right].
    + split; [|reflexivity]. intros _ [H|H]; [contradiction|].
      now apply (proj1 IH).
Qed.

Variable session_get : Params -> Exc Response.
Variable read_csv : string -> bool -> Exc DataFrame.
Variable str : exception -> string.
Variable gene : string.

(** The two columns are looked up by name in the header of page 1. When
    that header has no "cohort" label, or has it but no "expression_log2"
    label, the method raises the KeyError of the missing label, whatever
    the rows are, and the tool returns it as an error list. *)
Theorem missing_column_key_error (fuel : nat) (reqs : list Params)
    (df1 : DataFrame) (rest : list DataFrame) (missing : string) :
  fetch session_get read_csv fuel gene = Some (reqs, inr (df1 :: rest)) ->
  (missing = "cohort" /\ ~ In "cohort" (columns df1)) \/
  (missing = "expression_log2" /\ In "cohort" (columns df1) /\
   ~ In "expression_log2" (columns df1)) ->
  get_gene_specific_expression_in_cancer_type session_get read_csv fuel gene
  = Some (inl (KeyError missing)) /\
  server.get_gene_specific_expression_in_cancer_type
    session_get read_csv str fuel gene
  = Some (server.ErrorList
            [server.mkErrorDict
               (String.append "An error occurred while search gene: "
                              (str (KeyError missing)))]).
Proof.
  intros Hf Hmiss.
  assert (Ha : analyse (df1 :: rest) = inl (KeyError missing)).
  { unfold analyse, aggregate, groupby_agg, column_loc. simpl.
    destruct Hmiss as [[-> Hc] | (-> & Hc & He)].
    - apply get_loc_none in Hc. now rewrite Hc.
    - destruct (get_loc "cohort" (columns df1)) as [ki|] eqn:Ek.
      + apply get_loc_none in He. rewrite He. reflexivity.
      + apply get_loc_none in Ek. contradiction. }
  unfold server.get_gene_specific_expression_in_cancer_type,
         get_gene_specific_expression_in_cancer_type.
  rewrite Hf, Ha. auto.
Qed.

End MissingColumn.

Section Thresholds.

Import TCGA_API Spec.
Local Open Scope R_scope.











End Thresholds.

Section HowManyClassified.

Import TCGA_API Spec.
Local Open Scope R_scope.








End HowManyClassified.

Section EntriesAndDataset.

Import TCGA_API Spec.

Lemma filter_map_length {A B : Type} (f : A -> B) (p : B -> bool) (l : list A) :
  List.length (filter (fun a => p (f a)) l) = List.length (filter p (map f l)).
Proof.
  induction l as [|a l IH]; simpl; [reflexivity|].
  destruct (p (f a)); simpl; now rewrite IH.
Qed.

Lemma finite_mean_counts (vs : list float64) (m : R) :
  Series_mean vs = Fin m -> (1 <= Series_count vs)%nat.
Proof.
  unfold Series_mean, Series_count.
  destruct (Nat.eqb_spec (List.length (dropna vs)) 0); [discriminate | lia].
Qed.

(** Every entry the method returns stems from the dataset: its label is a
    (non-missing) cell of the cohort column, and its sample count is at
    least 1 and at most the number of rows of the dataset with that
    label. *)
Theorem entries_come_from_dataset (all_data : list DataFrame)
    (result : Classification) :
  analyse all_data = inr result ->
  exists final_df ki,
    bind_final_df all_data = Some final_df /\
    get_loc "cohort" (columns final_df) = Some ki /\
    forall e,
      In e (high_expression_cancers result ++ low_expression_cancers result) ->
      isna (cancer_type e) = false /\
      (1 <= sample_count e
       <= Z.of_nat (List.length
                      (filter (fun row =>
                                 if cell_eq_dec (cell_at ki row) (cancer_type e)
                                 then true else false)
                              (rows final_df))))%Z.
Proof.
  unfold analyse. intros H.
  destruct (bind_final_df all_data) as [final_df|]; simpl in H; [|discriminate].
  unfold aggregate in H.
  destruct (groupby_agg final_df "cohort" "expression_log2") as [e|stats] eqn:Eg;
    simpl in H; [discriminate|].
  injection H as <-.
  apply groupby_agg_inv in Eg as (ki & vi & keyed & Hk & _ & Hrows & ->).
  exists final_df, ki. split; [reflexivity|]. split; [exact Hk|].
  set (dg := sort_values mean false (agg_mean_std_count keyed)).
  assert (Hkeys : map fst keyed = map (cell_at ki) (rows final_df)).
  { apply (f_equal (map fst)) in Hrows. rewrite !map_map in Hrows.
    exact Hrows. }
  intros e He.
  assert (Hz : exists z, e = entry z /\ In (stat z) dg /\ exists m, zmean z = Fin m).
  { apply in_app_or in He. simpl in He.
    destruct He as [He|He]; apply in_map_iff in He as (z & <- & Hz);
      exists z; (split; [reflexivity|]).
    - split; [now apply in_high_expr in Hz | now apply (high_row_fin dg)].
    - split; [now apply in_low_expr in Hz | now apply (low_row_fin dg)]. }
  destruct Hz as (z & -> & Hin & m & Hm).
  apply (Permutation_in _ (sort_values_perm _ _ _)) in Hin.
  pose proof (in_agg keyed (stat z) Hin) as Hrow.
  assert (Hkey : In (cohort (stat z)) (group_keys keyed)).
  { rewrite <- agg_cohorts. now apply in_map. }
  apply in_group_keys in Hkey as [Hna _].
  unfold entry. cbn [cancer_type sample_count].
  split; [exact Hna|].
  set (k := cohort (stat z)) in *.
  assert (Hc : count (stat z) = Series_count (group_values keyed k))
    by (rewrite Hrow; reflexivity).
  assert (Hmean : Series_mean (group_values keyed k) = Fin m).
  { unfold zmean in Hm. rewrite Hrow in Hm. exact Hm. }
  pose proof (finite_mean_counts _ _ Hmean) as Hone.
  pose proof (Series_count_le (group_values keyed k)) as Hle.
  rewrite group_values_length in Hle. unfold row_count in Hle.
  rewrite (filter_map_length fst (fun c => if cell_eq_dec c k then true else false))
    in Hle.
  rewrite Hkeys, <- filter_map_length in Hle.
  rewrite Hc. lia.
Qed.

End EntriesAndDataset.

Section DisplayedOrder.

Import TCGA_API.
Local Open Scope R_scope.

Lemma Int_part_mono (x y : R) : x <= y -> (Int_part x <= Int_part y)%Z.
Proof.
  intros H.
  destruct (base_Int_part x) as [Hx1 Hx2], (base_Int_part y) as [Hy1 Hy2].
  assert (Hlt : IZR (Int_part x) < IZR (Int_part y + 1)).
  { rewrite plus_IZR. lra. }
  apply lt_IZR in Hlt. lia.
Qed.

(** Rounding to the nearest integer keeps the order. *)
Lemma rint_mono (x y : R) : x <= y -> (rint x <= rint y)%Z.
Proof.
  intros H. pose proof (Int_part_mono x y H) as Hf.
  destruct (base_Int_part x) as [Hx1 Hx2], (base_Int_part y) as [Hy1 Hy2].
  unfold rint.
  destruct (Z.eq_dec (Int_part x) (Int_part y)) as [E|E].
  - rewrite E in *.
    repeat match goal with
    | |- context [Rlt_dec ?a ?b] => destruct (Rlt_dec a b)
    end; try lia; try lra;
    destruct (Z.even (Int_part y)); try lia; lra.
  - repeat match goal with
    | |- context [Rlt_dec ?a ?b] => destruct (Rlt_dec a b)
    | |- context [Z.even ?a] => destruct (Z.even a)
    end; lia.
Qed.

Lemma round_mono (x y : float64) (n : nat) :
  f_le x y -> f_le (round x n) (round y n).
Proof.
  unfold f_le. destruct x as [a| | |], y as [b| | |]; simpl; try tauto.
  destruct (Rle_dec a b) as [Hab|]; [|discriminate]. intros _.
  assert (Hp : 0 < 10 ^ n) by (apply pow_lt; lra).
  destruct (Rle_dec _ _) as [|Hn]; [reflexivity|]. exfalso. apply Hn.
  apply Rmult_le_compat_r; [left; now apply Rinv_0_lt_compat|].
  apply IZR_le, rint_mono. apply Rmult_le_compat_r; lra.
Qed.

Lemma StronglySorted_map {A B : Type} (f : A -> B) (R : B -> B -> Prop)
    (l : list A) :
  StronglySorted (fun a b => R (f a) (f b)) l -> StronglySorted R (map f l).
Proof.
  induction 1 as [|x l Hl IH Hx]; simpl; constructor; [assumption|].
  rewrite Forall_forall in *. intros y Hy.
  apply in_map_iff in Hy as (a & <- & Ha). auto.
Qed.

(** The lists are in order also by the value they show: the rounded means
    of the "high" list never increase along the list, those of the "low"
    list never decrease. *)
Theorem returned_lists_sorted_by_rounded_mean (g : list StatRow) :
  StronglySorted (fun a b => f_le (mean_expression b) (mean_expression a))
                 (high_expression_cancers (classify g)) /\
  StronglySorted (fun a b => f_le (mean_expression a) (mean_expression b))
                 (low_expression_cancers (classify g)).
Proof.
  simpl. split; apply StronglySorted_map.
  - eapply StronglySorted_weaken; [|apply high_expr_sorted].
    intros a b _ _ H. now apply round_mono.
  - eapply StronglySorted_weaken; [|apply low_expr_sorted].
    intros a b _ _ H. now apply round_mono.
Qed.

End DisplayedOrder.

(** ** The KEGG client *)

(** Case analysis on every test of a branch in sight. *)
Ltac branches :=
  repeat match goal with
  | |- context [if ?c then _ else _] => destruct c eqn:?
  | |- context [match ?v with KeggAPI.PNone => _ | _ => _ end] => destruct v
  end.

Section KeggFacts.

Import KeggAPI.

Variable session_get : string -> string + string.
Variable repr : list string -> string.

Local Abbreviation query := (KeggAPI.query session_get repr).
Local Abbreviation kegg_info := (KeggAPI.kegg_info session_get repr).
Local Abbreviation kegg_list := (KeggAPI.kegg_list session_get repr).
Local Abbreviation kegg_find := (KeggAPI.kegg_find session_get repr).
Local Abbreviation kegg_get := (KeggAPI.kegg_get session_get repr).
Local Abbreviation kegg_conv := (KeggAPI.kegg_conv session_get repr).
Local Abbreviation kegg_link := (KeggAPI.kegg_link session_get repr).

Lemma prefix_app (a b c : string) :
  String.prefix (a ++ b) (a ++ c) = String.prefix b c.
Proof.
  induction a as [|x a IH]; simpl; [reflexivity|].
  destruct (ascii_dec x x); [exact IH | contradiction].
Qed.

Lemma prefix_app_nil (a c : string) : String.prefix a (a ++ c) = true.
Proof.
  induction a as [|x a IH]; simpl; [destruct c; reflexivity|].
  destruct (ascii_dec x x); [exact IH | contradiction].
Qed.

Lemma append_assoc (a b c : string) :
  ((a ++ b) ++ c = a ++ (b ++ c))%string.
Proof. induction a as [|x a IH]; simpl; [reflexivity | now rewrite IH]. Qed.

Lemma query_url (op : string) (a1 a2 a3 : value) :
  exists rest, fst (query op a1 a2 a3)
               = [("https://rest.kegg.jp/" ++ op ++ "/" ++ rest)%string].
Proof.
  unfold KeggAPI.query. simpl.
  destruct (truthy a2 && truthy a3); [|destruct (truthy a2)]; eexists; reflexivity.
Qed.

Lemma query_prefix (op : string) (a1 a2 a3 : value) (url : string) :
  In url (fst (query op a1 a2 a3)) ->
  String.prefix ("https://rest.kegg.jp/" ++ op ++ "/") url = true.
Proof.
  destruct (query_url op a1 a2 a3) as [rest ->]. intros [<-|[]].
  rewrite prefix_app, <- append_assoc. apply prefix_app_nil.
Qed.

(** Whatever the arguments are, each method sends its requests to its own
    endpoint of rest.kegg.jp: the URL handed to the session starts with the
    base URL followed by the name of the operation. *)
Theorem kegg_requests_stay_on_endpoint (url : string) :
  (forall database,
     In url (fst (kegg_info database)) ->
     String.prefix "https://rest.kegg.jp/info/" url = true) /\
  (forall database org,
     In url (fst (kegg_list database org)) ->
     String.prefix "https://rest.kegg.jp/list/" url = true) /\
  (forall database query_ option,
     In url (fst (kegg_find database query_ option)) ->
     String.prefix "https://rest.kegg.jp/find/" url = true) /\
  (forall dbentries option,
     In url (fst (kegg_get dbentries option)) ->
     String.prefix "https://rest.kegg.jp/get/" url = true) /\
  (forall target_db source_db option,
     In url (fst (kegg_conv target_db source_db option)) ->
     String.prefix "https://rest.kegg.jp/conv/" url = true) /\
  (forall target_db source_db option,
     In url (fst (kegg_link target_db source_db option)) ->
     String.prefix "https://rest.kegg.jp/link/" url = true).
Proof.
  repeat split; intros *.
  - apply (query_prefix "info").
  - unfold KeggAPI.kegg_list. branches;
      first [apply (query_prefix "list") | intros []].
  - unfold KeggAPI.kegg_find. branches;
      first [apply (query_prefix "find") | intros []].
  - unfold KeggAPI.kegg_get. branches;
      first [apply (query_prefix "get") | intros []].
  - unfold KeggAPI.kegg_conv. branches;
      first [apply (query_prefix "conv") | intros []].
  - unfold KeggAPI.kegg_link. branches;
      first [apply (query_prefix "link") | intros []].
Qed.

Lemma query_one_request (op : string) (a1 a2 a3 : value) :
  List.length (fst (query op a1 a2 a3)) = 1%nat /\
  forall message, snd (query op a1 a2 a3) <> inl (ValueError message).
Proof.
  unfold KeggAPI.query. simpl. split; [reflexivity|].
  intros message. destruct (session_get _); discriminate.
Qed.

(** The argument checks come before the network: a call whose outcome is
    the ValueError of a check has not called the session, and a call that
    has called the session has done so once. *)
Theorem kegg_checks_precede_requests :
  forall run : Run,
    (exists database, run = kegg_info database) \/
    (exists database org, run = kegg_list database org) \/
    (exists database query_ option, run = kegg_find database query_ option) \/
    (exists dbentries option, run = kegg_get dbentries option) \/
    (exists target_db source_db option, run = kegg_conv target_db source_db option) \/
    (exists target_db source_db option, run = kegg_link target_db source_db option) ->
    (List.length (fst run) <= 1)%nat /\
    (forall message, snd run = inl (ValueError message) -> fst run = []).
Proof.
  assert (Q : forall op a1 a2 a3,
            (List.length (fst (query op a1 a2 a3)) <= 1)%nat /\
            (forall message, snd (query op a1 a2 a3) = inl (ValueError message) ->
                             fst (query op a1 a2 a3) = [])).
  { intros op a1 a2 a3. destruct (query_one_request op a1 a2 a3) as [H1 H2].
    split; [lia|]. intros m Hm. now apply H2 in Hm. }
  assert (V : forall m,
            (List.length (fst (raise_ValueError m)) <= 1)%nat /\
            (forall message, snd (raise_ValueError m) = inl (ValueError message) ->
                             fst (raise_ValueError m) = [])).
  { intros m. simpl. split; [lia | reflexivity]. }
  intros run H.
  destruct H as [(a & ->)|[(a & b & ->)|[(a & b & c & ->)|[(a & b & ->)|
                 [(a & b & c & ->)|(a & b & c & ->)]]]]].
  - apply Q.
  - unfold KeggAPI.kegg_list. branches; first [apply Q | apply V].
  - unfold KeggAPI.kegg_find. branches; first [apply Q | apply V].
  - unfold KeggAPI.kegg_get. branches; first [apply Q | apply V].
  - unfold KeggAPI.kegg_conv. branches; first [apply Q | apply V].
  - unfold KeggAPI.kegg_link. branches; first [apply Q | apply V].
Qed.

(** [kegg_get] takes at most ten entries: a list of up to ten is the same
    call as the str of the entries joined by "+", a longer list is refused
    before any request, whatever the option. A non-empty option is
    accepted exactly when it is one of the seven known ones. *)
Theorem kegg_get_entry_limit_and_options :
  (forall l option,
     (List.length l <= 10)%nat ->
     kegg_get (PList l) option = kegg_get (PStr (join "+" l)) option) /\
  (forall l option,
     (10 < List.length l)%nat ->
     kegg_get (PList l) option
     = ([], inl (ValueError "Maximum number of dbentries is 10 for kegg get query"))) /\
  (forall entries option,
     truthy option = true ->
     is_in option ["aaseq"; "ntseq"; "mol"; "kcf"; "image"; "kgml"; "json"] = false ->
     kegg_get (PStr entries) option
     = ([], inl (ValueError "Invalid option arg for kegg get request."))) /\
  (forall entries option,
     is_in option ["aaseq"; "ntseq"; "mol"; "kcf"; "image"; "kgml"; "json"] = true ->
     fst (kegg_get (PStr entries) option)
     = [("https://rest.kegg.jp/get/" ++ entries ++ "/" ++ format_value repr option)%string]).
Proof.
  split; [|split; [|split]].
  - intros l option Hl. unfold KeggAPI.kegg_get.
    destruct (Nat.leb_spec (List.length l) 10); [reflexivity | lia].
  - intros l option Hl. unfold KeggAPI.kegg_get.
    destruct (Nat.leb_spec (List.length l) 10); [lia | reflexivity].
  - intros entries option Ht Hn. unfold KeggAPI.kegg_get. now rewrite Hn, Ht.
  - intros entries option Hin. unfold KeggAPI.kegg_get, KeggAPI.query.
    rewrite Hin.
    assert (Ht : truthy option = true).
    { destruct option as [|o|]; try discriminate. simpl in *.
      destruct o; [discriminate | reflexivity]. }
    rewrite Ht. reflexivity.
Qed.

(** [kegg_list] with a list of databases: up to 100 are joined by "+" and
    the organism is not looked at; more than 100 are refused before any
    request. With a non-empty str and an organism, only the pathway and
    module databases are listed, any other database is refused. *)
Theorem kegg_list_databases_and_organism :
  (forall l org,
     (List.length l <= 100)%nat ->
     kegg_list (PList l) org = kegg_list (PStr (join "+" l)) PNone) /\
  (forall l org,
     (100 < List.length l)%nat ->
     kegg_list (PList l) org
     = ([], inl (ValueError "Maximum number of databases is 100 for kegg list query"))) /\
  (forall database org,
     database <> EmptyString -> truthy org = true ->
     if is_in (PStr database) ["pathway"; "module"]
     then fst (kegg_list (PStr database) org)
          = [("https://rest.kegg.jp/list/" ++ database ++ "/" ++ format_value repr org)%string]
     else kegg_list (PStr database) org
          = ([], inl (ValueError "Invalid database arg for kegg list request."))).
Proof.
  split; [|split].
  - intros l org Hl. unfold KeggAPI.kegg_list. simpl.
    destruct (Nat.ltb_spec 100 (List.length l)); [lia|].
    rewrite !andb_false_r. reflexivity.
  - intros l org Hl. unfold KeggAPI.kegg_list. simpl.
    destruct (Nat.ltb_spec 100 (List.length l)); [reflexivity | lia].
  - intros database org Hd Ho. unfold KeggAPI.kegg_list, KeggAPI.query.
    rewrite Ho.
    destruct (is_in (PStr database) ["pathway"; "module"]); [reflexivity|].
    simpl. destruct database; [contradiction | reflexivity].
Qed.

(** [kegg_find] sends an option only for the compound and drug databases
    and only one of the three known ones; any other non-empty option is
    refused. A list of search terms is joined by "+" only when no option
    is given: next to an accepted option the list goes into the URL as
    [str] prints it. And as [query] leaves out what follows an empty
    argument, an accepted option is not sent when the search terms are
    empty. *)
Theorem kegg_find_option_and_terms :
  (forall database query_ option,
     truthy option = true ->
     is_in database ["compound"; "drug"]
     && is_in option ["formula"; "exact_mass"; "mol_weight"] = false ->
     kegg_find database query_ option
     = ([], inl (ValueError "Invalid option arg for kegg find request."))) /\
  (forall database l,
     kegg_find database (PList l) PNone
     = kegg_find database (PStr (join "+" l)) PNone) /\
  (forall database l option,
     l <> [] ->
     is_in database ["compound"; "drug"]
     && is_in option ["formula"; "exact_mass"; "mol_weight"] = true ->
     fst (kegg_find database (PList l) option)
     = [("https://rest.kegg.jp/find/" ++ format_value repr database ++ "/"
         ++ repr l ++ "/" ++ format_value repr option)%string]) /\
  (forall database query_ option,
     truthy query_ = false ->
     is_in database ["compound"; "drug"]
     && is_in option ["formula"; "exact_mass"; "mol_weight"] = true ->
     fst (kegg_find database query_ option)
     = [("https://rest.kegg.jp/find/" ++ format_value repr database)%string]).
Proof.
  split; [|split; [|split]].
  - intros database query_ option Ht Hn. unfold KeggAPI.kegg_find.
    now rewrite Hn, Ht.
  - intros database l. unfold KeggAPI.kegg_find. simpl.
    rewrite andb_false_r. reflexivity.
  - intros database l option Hl Hok. unfold KeggAPI.kegg_find, KeggAPI.query.
    rewrite Hok.
    assert (Ht : truthy option = true).
    { apply andb_true_iff in Hok as [_ Ho].
      destruct option as [|o|]; try discriminate. simpl in *.
      destruct o; [discriminate | reflexivity]. }
    rewrite Ht. destruct l; [contradiction | reflexivity].
  - intros database query_ option Hq Hok. unfold KeggAPI.kegg_find, KeggAPI.query.
    rewrite Hok, Hq. reflexivity.
Qed.

Lemma is_in_In (s : string) (choices : list string) :
  is_in (PStr s) choices = true <-> In s choices.
Proof.
  simpl. rewrite existsb_exists. split.
  - intros (x & Hx & E). apply String.eqb_eq in E. now subst.
  - intros H. exists s. split; [assumption | apply String.eqb_refl].
Qed.

(** For the targets drug and compound, [kegg_conv] goes to the network only
    for the sources pubchem and glycan and the three gene identifier
    databases; every other source, chebi included, is refused with a
    ValueError and without a request. *)
Theorem kegg_conv_chemical_sources (target_db source_db : string) (option : value) :
  In target_db ["drug"; "compound"] ->
  fst (kegg_conv (PStr target_db) (PStr source_db) option) <> [] ->
  In source_db ["pubchem"; "glycan"; "ncbi-gi"; "ncbi-geneid"; "uniprot"].
Proof.
  intros Ht Hreq. unfold KeggAPI.kegg_conv in Hreq.
  destruct (truthy option && negb (is_in option ["turtle"; "n-triple"]));
    [now elim Hreq|].
  match type of Hreq with
  | fst (if ?c then _ else _) <> [] => destruct c eqn:Ec; [clear Hreq | now elim Hreq]
  end.
  apply orb_true_iff in Ec as [Ec|Ec];
    [apply orb_true_iff in Ec as [Ec|Ec];
       [apply orb_true_iff in Ec as [Ec|Ec]|]|].
  - apply is_in_In in Ec. simpl in Ht, Ec.
    decompose [or] Ht; decompose [or] Ec; subst; try contradiction; discriminate.
  - apply is_in_In in Ec. simpl in Ec |- *. tauto.
  - apply andb_true_iff in Ec as [_ Ec]. apply is_in_In in Ec.
    simpl in Ec |- *. tauto.
  - apply andb_true_iff in Ec as [Ec _]. apply is_in_In in Ec. simpl in Ht, Ec.
    decompose [or] Ht; decompose [or] Ec; subst; try contradiction; discriminate.
Qed.

End KeggFacts.

(** ** Worked runs of the further properties *)

Section MoreRuns.

Import TCGA_API Scenario Remotes.

Lemma fetch_ends_by_break_only_witness :
  fetch (serve page_then_206) tsv_reader 3 "TP53"
  = Some (map (params_at "TP53") (seq 1 2),
          inr [mkDataFrame header5 [map CStr record5]]).
Proof.
  refine (proj2 (fetch_ends_by_break_only (serve page_then_206) tsv_reader "TP53")
                1%nat
                (mkLoopState 2 (Some header5)
                   [mkDataFrame header5 [map CStr record5]]
                   [params_at "TP53" 1])
                (mkResponse 206 (body [record5])) _ _ _ 3%nat _).
  - vm_compute. reflexivity.
  - reflexivity.
  - left. simpl. lia.
  - lia.
Defined.

Lemma fetch_has_no_page_limit_witness :
  fetch endless (canned_reader "one page" outlier_df) 1000 "TP53" = None.
Proof.
  refine (proj1 (fetch_has_no_page_limit
                   endless (canned_reader "one page" outlier_df) class_name "TP53"
                   3 _ 1000%nat)).
  intros p h. exists (mkResponse 200 "one page"), outlier_df.
  repeat split; reflexivity.
Defined.

Lemma collaborator_exception_discards_pages_witness :
  server.get_gene_specific_expression_in_cancer_type
    drops_connection tsv_reader class_name 5 "TP53"
  = Some (server.ErrorList
            [server.mkErrorDict
               "An error occurred while search gene: RequestException"]).
Proof.
  refine (proj2 (proj2 (collaborator_exception_discards_pages
                          drops_connection tsv_reader class_name "TP53" 1%nat
                          (mkLoopState 2 (Some header5)
                             [mkDataFrame header5 [map CStr record5]]
                             [params_at "TP53" 1])
                          (RequestException "connection reset") _ _ 5%nat _))).
  - vm_compute. reflexivity.
  - left. reflexivity.
  - lia.
Defined.

Lemma missing_column_key_error_witness :
  server.get_gene_specific_expression_in_cancer_type
    (serve no_cohort_page) tsv_reader class_name 2 "TP53"
  = Some (server.ErrorList
            [server.mkErrorDict "An error occurred while search gene: KeyError"]).
Proof.
  refine (proj2 (missing_column_key_error
                   (serve no_cohort_page) tsv_reader class_name "TP53" 2%nat
                   [params_at "TP53" 1; params_at "TP53" 2]
                   (mkDataFrame ["gene"; "expression_log2"]
                                [[CStr "TP53"; CStr "10.57"]])
                   [] "cohort" _ _)).
  - vm_compute. reflexivity.
  - left. split; [reflexivity|]. simpl. intuition discriminate.
Defined.


Lemma outlier_analyse :
  analyse [outlier_df]
  = inr (mkClassification [mkEntry (CStr "D") (Fin 20) 1] []).
Proof.
  unfold analyse. cbn [bind_final_df read_local].
  change (concat [outlier_df]) with outlier_df.
  cbn [bind ret Monad_either]. rewrite outlier_aggregate.
  now rewrite outlier_classification.
Qed.

Lemma entries_come_from_dataset_witness :
  exists final_df ki,
    bind_final_df [outlier_df] = Some final_df /\
    get_loc "cohort" (columns final_df) = Some ki /\
    forall e,
      In e (high_expression_cancers
              (mkClassification [mkEntry (CStr "D") (Fin 20) 1] [])
            ++ low_expression_cancers
                 (mkClassification [mkEntry (CStr "D") (Fin 20) 1] [])) ->
      isna (cancer_type e) = false /\
      (1 <= sample_count e
       <= Z.of_nat (List.length
                      (filter (fun row =>
                                 if cell_eq_dec (cell_at ki row) (cancer_type e)
                                 then true else false)
                              (rows final_df))))%Z.
Proof.
  exact (entries_come_from_dataset [outlier_df] _ outlier_analyse).
Defined.

End MoreRuns.

Section KeggRuns.

Import KeggAPI Remotes.

Lemma kegg_requests_stay_on_endpoint_witness :
  String.prefix "https://rest.kegg.jp/get/"
                "https://rest.kegg.jp/get/hsa:10458+ece:Z5100/aaseq" = true.
Proof.
  refine (proj1 (proj2 (proj2 (proj2
            (kegg_requests_stay_on_endpoint echo bracketed
               "https://rest.kegg.jp/get/hsa:10458+ece:Z5100/aaseq"))))
            (PList ["hsa:10458"; "ece:Z5100"]) (PStr "aaseq") _).
  left. reflexivity.
Defined.

Lemma kegg_checks_precede_requests_witness :
  fst (kegg_get echo bracketed (PStr "hsa:10458") (PStr "fasta")) = [].
Proof.
  refine (proj2 (kegg_checks_precede_requests echo bracketed
                   (kegg_get echo bracketed (PStr "hsa:10458") (PStr "fasta")) _)
                "Invalid option arg for kegg get request." _).
  - right. right. right. left. eauto.
  - reflexivity.
Defined.

Lemma kegg_get_entry_limit_and_options_witness :
  kegg_get echo bracketed (PList (repeat "hsa:10458" 11)) (PStr "aaseq")
  = ([], inl (ValueError "Maximum number of dbentries is 10 for kegg get query")).
Proof.
  refine (proj1 (proj2 (kegg_get_entry_limit_and_options echo bracketed)) _ _ _).
  simpl. lia.
Defined.

Lemma kegg_list_databases_and_organism_witness :
  kegg_list echo bracketed (PList ["compound"; "drug"]) (PStr "hsa")
  = kegg_list echo bracketed (PStr "compound+drug") PNone.
Proof.
  refine (proj1 (kegg_list_databases_and_organism echo bracketed)
                ["compound"; "drug"] (PStr "hsa") _).
  simpl. lia.
Defined.

Lemma kegg_find_option_and_terms_witness :
  fst (kegg_find echo bracketed (PStr "compound") (PList ["C7H10O5"; "C6H6"])
                 (PStr "formula"))
  = ["https://rest.kegg.jp/find/compound/[C7H10O5, C6H6]/formula"].
Proof.
  refine (proj1 (proj2 (proj2 (kegg_find_option_and_terms echo bracketed)))
                (PStr "compound") ["C7H10O5"; "C6H6"] (PStr "formula") _ _).
  - discriminate.
  - reflexivity.
Defined.

Lemma kegg_conv_chemical_sources_witness :
  In "pubchem" ["pubchem"; "glycan"; "ncbi-gi"; "ncbi-geneid"; "uniprot"].
Proof.
  refine (kegg_conv_chemical_sources echo bracketed "compound" "pubchem" PNone _ _).
  - simpl. auto.
  - discriminate.
Defined.

End KeggRuns.

(** ** White space around the body *)

Section WhiteSpace.

Import TCGA_API Scenario Remotes.

Lemma lstrip_blank (ws t : string) :
  blank ws = true -> lstrip (ws ++ t)%string = lstrip t.
Proof.
  induction ws as [|c ws IH]; simpl; [reflexivity|].
  intros H. apply andb_true_iff in H as [-> H]. now apply IH.
Qed.

Lemma strip_blank (ws : string) : blank ws = true -> strip ws = EmptyString.
Proof.
  intros H. unfold strip.
  replace ws with (ws ++ "")%string
    by (clear H; induction ws as [|c ws IH]; simpl; [reflexivity | now rewrite IH]).
  now rewrite lstrip_blank.
Qed.

(** [rstrip] leaves everything up to a character that is no white space. *)
Lemma rstrip_keeps (p : string) (c : ascii) (s : string) :
  isspace c = false ->
  exists r, rstrip (p ++ String c s)%string = (p ++ String c r)%string.
Proof.
  intros Hc. induction p as [|a p [r IH]]; simpl.
  - destruct (rstrip s) as [|x r'].
    + rewrite Hc. now exists EmptyString.
    + now exists (String x r').
  - rewrite IH. exists r. destruct p; reflexivity.
Qed.

Lemma strip_padded_sentinel (ws rest : string) :
  blank ws = true ->
  startswith (strip (ws ++ "No records" ++ rest)%string) "No records" = true.
Proof.
  intros H. unfold strip, startswith. rewrite lstrip_blank by assumption.
  change (lstrip ("No records" ++ rest)%string)
    with ("No record" ++ String "s" rest)%string.
  destruct (rstrip_keeps "No record" "s" rest eq_refl) as [r ->].
  simpl. destruct r; reflexivity.
Qed.

Variable session_get : Params -> Exc Response.
Variable read_csv : string -> bool -> Exc DataFrame.
Variable gene : string.

(** The two textual [break] conditions look at the stripped body: a body of
    white space only ends the pagination like an empty one, and the
    sentinel is recognised behind leading white space (and whatever follows
    it). In both cases the fetch returns what the earlier pages
    accumulated. *)
Theorem blank_or_padded_sentinel_ends_pagination (n : nat) (s : LoopState)
    (resp : Response) :
  after session_get read_csv n gene initial = Some s ->
  session_get (params_at gene (S n)) = inr resp ->
  blank (text resp) = true \/
  (exists ws rest, blank ws = true /\
                   text resp = (ws ++ "No records" ++ rest)%string) ->
  forall fuel, (n < fuel)%nat ->
    fetch session_get read_csv fuel gene
    = Some (map (params_at gene) (seq 1 (S n)), inr (all_data s)).
Proof.
  intros Hr Hget Hbody fuel Hfuel.
  apply (break_ends_fetch session_get read_csv gene n s resp);
    try assumption.
  right. destruct Hbody as [Hb|(ws & rest & Hws & ->)].
  - left. now rewrite strip_blank.
  - right. now apply strip_padded_sentinel.
Qed.

End WhiteSpace.

Section WhiteSpaceRun.

Import TCGA_API Scenario Remotes.

Lemma blank_or_padded_sentinel_ends_pagination_witness :
  fetch (serve page_then_padded_sentinel) tsv_reader 2 "TP53"
  = Some (map (params_at "TP53") (seq 1 2),
          inr [mkDataFrame header5 [map CStr record5]]).
Proof.
  refine (blank_or_padded_sentinel_ends_pagination
            (serve page_then_padded_sentinel) tsv_reader "TP53" 1%nat
            (mkLoopState 2 (Some header5)
               [mkDataFrame header5 [map CStr record5]]
               [params_at "TP53" 1])
            (mkResponse 200 (String newline (String.append "No records found"
                                               (String newline EmptyString))))
            _ _ _ 2%nat _).
  - vm_compute. reflexivity.
  - reflexivity.
  - right. exists (String newline EmptyString),
             (String.append " found" (String newline EmptyString)).
    split; reflexivity.
  - lia.
Defined.

End WhiteSpaceRun.

(** ** A change of units *)

Section UnitFree.

Import TCGA_API Spec Units.
Local Open Scope R_scope.

Variables a b : R.
Hypothesis a_pos : 0 < a.















End UnitFree.

Section SortAndMap.

Context {A B : Type} (f : A -> B) (le : A -> A -> bool) (le' : B -> B -> bool).
Hypothesis le_f : forall x y, le' (f x) (f y) = le x y.



End SortAndMap.


Section UnitFreeClassification.

Import TCGA_API Spec Units.
Local Open Scope R_scope.

Variables a b : R.
Hypothesis a_pos : 0 < a.




End UnitFreeClassification.


(** ** Cross-references and conversions *)

Section KeggLinkFacts.

Import KeggAPI.

Variable session_get : string -> string + string.
Variable repr : list string -> string.

Local Abbreviation kegg_conv := (KeggAPI.kegg_conv session_get repr).
Local Abbreviation kegg_link := (KeggAPI.kegg_link session_get repr).

(** [kegg_link] checks the option only, with the message of [kegg_conv]:
    an option other than turtle and n-triple is refused by both methods
    with the same ValueError; with an acceptable option (or none)
    [kegg_link] sends its request for every pair of databases, also for
    those [kegg_conv] refuses. In both methods a list of sources is the
    same call as the str of the sources joined by "+"; an empty list
    therefore gives an empty source, and [kegg_link] then asks for the
    target alone, the option left out. *)
Theorem kegg_link_checks_option_only :
  (forall target_db source_db option,
     truthy option = true -> is_in option ["turtle"; "n-triple"] = false ->
     kegg_link target_db source_db option
     = ([], inl (ValueError "Invalid option arg for kegg conv request.")) /\
     kegg_conv target_db source_db option
     = kegg_link target_db source_db option) /\
  (forall target_db source_db option,
     truthy option = false \/ is_in option ["turtle"; "n-triple"] = true ->
     List.length (fst (kegg_link target_db source_db option)) = 1%nat) /\
  (forall target_db l option,
     kegg_link target_db (PList l) option
     = kegg_link target_db (PStr (join "+" l)) option /\
     kegg_conv target_db (PList l) option
     = kegg_conv target_db (PStr (join "+" l)) option) /\
  (forall target_db option,
     truthy option = false \/ is_in option ["turtle"; "n-triple"] = true ->
     fst (kegg_link target_db (PList []) option)
     = [("https://rest.kegg.jp/link/" ++ format_value repr target_db)%string]).
Proof.
  split; [|split; [|split]].
  - intros t s o H H0. unfold KeggAPI.kegg_link, KeggAPI.kegg_conv.
    rewrite H, H0. split; reflexivity.
  - intros t s o H. unfold KeggAPI.kegg_link.
    assert (E : truthy o && negb (is_in o ["turtle"; "n-triple"]) = false).
    { destruct H as [H|H]; rewrite H; [reflexivity | apply andb_false_r]. }
    rewrite E. destruct (truthy o); reflexivity.
  - intros t l o. unfold KeggAPI.kegg_link, KeggAPI.kegg_conv.
    split; reflexivity.
  - intros t o H. unfold KeggAPI.kegg_link.
    assert (E : truthy o && negb (is_in o ["turtle"; "n-triple"]) = false).
    { destruct H as [H|H]; rewrite H; [reflexivity | apply andb_false_r]. }
    rewrite E. destruct (truthy o); reflexivity.
Qed.

End KeggLinkFacts.

Section KeggLinkRuns.

Import KeggAPI Remotes.

Lemma kegg_link_checks_option_only_witness :
  List.length (fst (kegg_link echo bracketed (PStr "pathway") (PStr "chebi") PNone))
  = 1%nat.
Proof.
  refine (proj1 (proj2 (kegg_link_checks_option_only echo bracketed))
                (PStr "pathway") (PStr "chebi") PNone _).
  left. reflexivity.
Defined.

End KeggLinkRuns.
